(** * The e-mail OTP server: a shallow embedding and its lifecycle properties

    The program is an Express application that keeps two process-local
    [Map]s (pending OTP challenges and session tokens), one JSON document on
    disk (the registered users) and talks to an SMTP relay.  Every route
    handler is embedded as a function from the state of that world to a
    response and a new world.

    Modelling conventions, all visible in the definitions below:
    - a request field is [option string]: [None] is JavaScript's [undefined];
      the handlers test every field for truthiness before they use it;
    - a string is a [string], a sequence of bytes that stands for the
      JavaScript string it encodes; [toLowerCase] is not fixed: the
      handlers take the case folding as an argument, and every statement
      holds for every folding, so also for the one of JavaScript;
    - numbers are unbounded integers ([Z]); time is in milliseconds;
    - everything a handler obtains from outside (the clock, the random
      source, whether an I/O call throws) comes from an [Oracle] that is an
      argument of the handler, so that the statements hold for every clock
      reading, every random draw and every pattern of I/O failures;
    - [users.json] is missing, holds an array of user records, or does not
      parse; a write that throws leaves the file untouched, truncated, or
      fully written, as the oracle says;
    - a handler runs from its first line to its response without another
      handler running in between. *)

From Stdlib Require Import ZArith String Ascii List Bool Lia.
From stdpp Require Import base option gmap strings list.

Import ListNotations.
Local Open Scope Z_scope.
Local Open Scope string_scope.

(** ** JavaScript values used by the handlers *)

Module Js.

(** [!!v] for a field that is either [undefined] or a string. *)
Definition truthy (v : option string) : bool :=
  match v with
  | Some (String _ _) => true
  | Some EmptyString => false
  | None => false
  end.

(** The string held by a field once it is known to be truthy. *)
Definition str (v : option string) : string :=
  match v with Some s => s | None => "" end.

(** [a || b] on fields. *)
Definition or_else (a b : option string) : option string :=
  if truthy a then a else b.

Definition lower_ascii (c : ascii) : ascii :=
  let n := N_of_ascii c in
  if ((65 <=? n) && (n <=? 90))%N then ascii_of_N (n + 32) else c.

(** [s.toLowerCase()].  What JavaScript's case folding does to a string is
    not fixed here: it is a function the handlers take, and everything
    about them is proved for every such function. *)
Class CaseFolding := { toLowerCase : string -> string }.

(** The folding of the letters A to Z, which is what [toLowerCase] does on
    ASCII strings; the sample runs use it. *)
Fixpoint ascii_toLowerCase (s : string) : string :=
  match s with
  | EmptyString => EmptyString
  | String c s' => String (lower_ascii c) (ascii_toLowerCase s')
  end.

(** [a || b] on numbers. *)
Definition num_or (a b : Z) : Z := if Z.eqb a 0 then b else a.

(** [Math.ceil(a / b)] for integers [a] and [b > 0]. *)
Definition ceil_div (a b : Z) : Z := - ((- a) / b).

Definition hex_digit (n : N) : ascii :=
  if (n <? 10)%N then ascii_of_N (48 + n) else ascii_of_N (87 + n).

Definition hex_of_byte (b : Byte.byte) : string :=
  let n := Byte.to_N b in
  String (hex_digit (n / 16)) (String (hex_digit (n mod 16)) EmptyString).

(** [buf.toString('hex')]. *)
Fixpoint toString_hex (buf : list Byte.byte) : string :=
  match buf with
  | [] => EmptyString
  | b :: buf' => hex_of_byte b +:+ toString_hex buf'
  end.

Definition is_hex (c : ascii) : bool :=
  let n := N_of_ascii c in
  (((48 <=? n) && (n <=? 57)) || ((97 <=? n) && (n <=? 102)))%N.

Definition is_digit (c : ascii) : bool :=
  let n := N_of_ascii c in ((48 <=? n) && (n <=? 57))%N.

(** The decimal digit appended by [otp += d] for a number [0 <= d <= 9]. *)
Definition digit_string (d : nat) : string :=
  String (ascii_of_nat (48 + d)) EmptyString.

End Js.

Definition ascii_folding : Js.CaseFolding :=
  {| Js.toLowerCase := Js.ascii_toLowerCase |}.

(** ** Data model *)

(** [otpStore]: email -> { otp, expiresAt, attempts } *)
Record OtpEntry := {
  otp : string;
  otp_expiresAt : Z;
  attempts : Z
}.

(** [tokenStore]: token -> { email, expiresAt } *)
Record TokenEntry := {
  tok_email : string;
  tok_expiresAt : Z
}.

(** One element of the array in [users.json]. *)
Record User := {
  id : string;
  name : string;
  email : string;
  createdAt : Z
}.

(** The arguments of one [transporter.sendMail] call.  The text and the html
    part are fixed templates around the code and the minutes hint. *)
Record Mail := {
  mail_to : string;
  mail_subject : string;
  mail_code : string;
  mail_minutes : Z
}.

(** What is on disk under [USERS_FILE]: no file, a JSON document holding
    an array of user records, or a file that does not parse (for instance
    one a failed write has truncated). *)
Inductive Disk :=
| NoFile
| Document (users : list User)
| Unparsable.

(** What a [fs.writeJson] call that throws has done to the file: nothing,
    or it has truncated the file and written none or part of the text, or
    it has written the whole text and failed afterwards. *)
Inductive Leftover :=
| Untouched
| Torn
| Written.

Record Config := {
  OTP_EXPIRES_SECONDS : Z;
  TOKEN_EXPIRES_SECONDS : Z
}.

(** The values used when the environment sets neither variable. *)
Definition default_config : Config :=
  {| OTP_EXPIRES_SECONDS := 300; TOKEN_EXPIRES_SECONDS := 900 |}.

(** What one handler run obtains from outside the process. *)
Record Oracle := {
  now1 : Z;                      (* first  [Date.now()] of the run *)
  now2 : Z;                      (* second [Date.now()] of the run *)
  now3 : Z;                      (* third  [Date.now()] of the run *)
  random_digit : nat -> nat;     (* i-th [Math.floor(Math.random() * 10)] *)
  random_byte : nat -> Byte.byte;(* i-th byte of [crypto.randomBytes] *)
  create_throws : bool;          (* [fs.writeJson(USERS_FILE, [])] throws *)
  create_leaves : Leftover;      (* ... and what it then leaves *)
  read_throws : bool;            (* [fs.readJson(USERS_FILE)] throws *)
  write_throws : bool;           (* [fs.writeJson(USERS_FILE, users, ..)] throws *)
  write_leaves : Leftover;       (* ... and what it then leaves *)
  mail_throws : bool             (* [transporter.sendMail] throws *)
}.

(** The world a handler runs in.  [usersFile] is the state of
    [users.json]; [outbox] lists the [sendMail] calls made, latest first. *)
Record World := {
  otpStore : gmap string OtpEntry;
  tokenStore : gmap string TokenEntry;
  usersFile : Disk;
  outbox : list Mail
}.

Definition set_otpStore (f : gmap string OtpEntry -> gmap string OtpEntry)
    (w : World) : World :=
  {| otpStore := f (otpStore w); tokenStore := tokenStore w;
     usersFile := usersFile w; outbox := outbox w |}.

Definition set_tokenStore
    (f : gmap string TokenEntry -> gmap string TokenEntry) (w : World) : World :=
  {| otpStore := otpStore w; tokenStore := f (tokenStore w);
     usersFile := usersFile w; outbox := outbox w |}.

Definition set_usersFile (d : Disk) (w : World) : World :=
  {| otpStore := otpStore w; tokenStore := tokenStore w;
     usersFile := d; outbox := outbox w |}.

Definition push_outbox (m : Mail) (w : World) : World :=
  {| otpStore := otpStore w; tokenStore := tokenStore w;
     usersFile := usersFile w; outbox := m :: outbox w |}.

(** The users a file holds, and the registered users of a world. *)
Definition stored (d : Disk) : list User :=
  match d with
  | Document users => users
  | NoFile | Unparsable => []
  end.

Definition directory (w : World) : list User := stored (usersFile w).

(** ** Responses *)

Inductive Body :=
| Error (error : string)                     (* { ok: false, error } *)
| Message (message : string)                 (* { ok: true, message } *)
| WithToken (message : string) (token : string)
                                             (* { ok: true, message, token } *)
| WithUser (message : string) (user : User)  (* { ok: true, message, user } *)
| ExistsIs (exists_ : bool)                  (* { ok: true, exists } *)
| UserIs (user : User).                      (* { ok: true, user } *)

Record Response := { status : Z; body : Body }.

(** ** Handlers as state transformers with early return *)

Inductive Result (A : Type) :=
| Next (a : A)
| Return (r : Response).
Arguments Next {A} a.
Arguments Return {A} r.

Definition M (A : Type) : Type := World -> Result A * World.

Definition ret {A} (a : A) : M A := fun w => (Next a, w).

Definition bind {A B} (k : A -> M B) (m : M A) : M B :=
  fun w =>
    match m w with
    | (Next a, w') => k a w'
    | (Return r, w') => (Return r, w')
    end.

(** stdpp's notations [x ← m; k] and [m ;; k] for the two. *)
#[export] Instance M_ret : MRet M := @ret.
#[export] Instance M_bind : MBind M := @bind.

(** [return res.status(code).json(body)] *)
Definition reply {A} (code : Z) (b : Body) : M A :=
  fun w => (Return {| status := code; body := b |}, w).

(** [if (c) return ...] *)
Definition when (c : bool) (m : M unit) : M unit :=
  if c then m else ret tt.

Definition get_world : M World := fun w => (Next w, w).
Definition modify (f : World -> World) : M unit := fun w => (Next tt, f w).

(** A route handler replies on every path. *)
Definition Handler : Type := M Empty_set.

Definition run (h : Handler) (w : World) : Response * World :=
  match h w with
  | (Return r, w') => (r, w')
  | (Next e, _) => match e with end
  end.

(** ** The users file

    [fs-extra] calls either return or throw.  Whether a call throws, and
    what a write that throws leaves of the file, is the oracle's. *)

Inductive Outcome (A : Type) :=
| Returns (a : A)
| Throws.
Arguments Returns {A} a.
Arguments Throws {A}.

(** [fs.pathExists(USERS_FILE)] *)
Definition fs_pathExists (d : Disk) : bool :=
  match d with NoFile => false | Document _ | Unparsable => true end.

(** [fs.readJson(USERS_FILE)] *)
Definition fs_readJson (throws : bool) (d : Disk) : Outcome (list User) :=
  if throws then Throws
  else match d with
       | Document users => Returns users
       | NoFile | Unparsable => Throws
       end.

(** The file after a write of [users] that has thrown. *)
Definition left_by (leaves : Leftover) (users : list User) (d : Disk) : Disk :=
  match leaves with
  | Untouched => d
  | Torn => Unparsable
  | Written => Document users
  end.

(** [fs.writeJson(USERS_FILE, users)]: how the call ends, and the file
    afterwards. *)
Definition fs_writeJson (throws : bool) (leaves : Leftover)
    (users : list User) (d : Disk) : Outcome unit * Disk :=
  if throws then (Throws, left_by leaves users d)
  else (Returns tt, Document users).

(** [readUsers()]: the array returned and the file afterwards. *)
Definition readUsers_disk (o : Oracle) (d : Disk) : list User * Disk :=
  if negb (fs_pathExists d) then
    match fs_writeJson (create_throws o) (create_leaves o) [] d with
    | (Returns _, d') => ([], d')
    | (Throws, d') => ([], d')     (* catch (err) { ...; return []; } *)
    end
  else
    match fs_readJson (read_throws o) d with
    | Returns users => (users, d)
    | Throws => ([], d)            (* catch (err) { ...; return []; } *)
    end.

(** [writeUsers(users)]: [true] or [false], and the file afterwards. *)
Definition writeUsers_disk (o : Oracle) (users : list User) (d : Disk)
    : bool * Disk :=
  match fs_writeJson (write_throws o) (write_leaves o) users d with
  | (Returns _, d') => (true, d')
  | (Throws, d') => (false, d')    (* catch (err) { ...; return false; } *)
  end.

Definition readUsers (o : Oracle) : M (list User) :=
  fun w =>
    let '(users, d) := readUsers_disk o (usersFile w) in
    (Next users, set_usersFile d w).

Definition writeUsers (o : Oracle) (users : list User) : M bool :=
  fun w =>
    let '(ok, d) := writeUsers_disk o users (usersFile w) in
    (Next ok, set_usersFile d w).

(** ** Random values *)

(** [generateOTP(len)]: [len] decimal digits, appended one by one. *)
Definition generateOTP (o : Oracle) (len : nat) : string :=
  fold_left (fun otp i => otp +:+ Js.digit_string (random_digit o i mod 10))
            (seq 0 len) "".

(** [crypto.randomBytes(n)] *)
Definition randomBytes (o : Oracle) (n : nat) : list Byte.byte :=
  map (random_byte o) (seq 0 n).

(** [generateToken()] *)
Definition generateToken (o : Oracle) : string :=
  Js.toString_hex (randomBytes o 20).

(** ** The cleanup interval *)

(** The body of the [setInterval] callback, run at time [now]. *)
Definition janitor (now : Z) (w : World) : World :=
  set_tokenStore (filter (fun kv => ¬ (tok_expiresAt kv.2 <= now)))
    (set_otpStore (filter (fun kv => ¬ (otp_expiresAt kv.2 <= now))) w).

Section Server.

(** The case folding the server runs with. *)
Context {folding : Js.CaseFolding}.

(** [users.find(u => u.email.toLowerCase() === email.toLowerCase())] *)
Definition find_user (email_ : string) (users : list User) : option User :=
  find (fun u => String.eqb (Js.toLowerCase (email u)) (Js.toLowerCase email_))
       users.

(** ** The route handlers

    [now1 o], [now2 o] and [now3 o] are the values of the handler's first,
    second and third [Date.now()] expression in the order of the program
    text. *)

(** [app.post('/send-otp', ...)] *)
Definition send_otp (cfg : Config) (o : Oracle) (email_f : option string)
    : Handler :=
  when (negb (Js.truthy email_f)) (reply 400 (Error "Email required"));;
  let email_ := Js.str email_f in
  w ← get_world;
  let existing := otpStore w !! email_ in
  when (match existing with
        | Some e =>
            bool_decide (otp_expiresAt e > now1 o) &&
            (let secsLeft := Js.ceil_div (otp_expiresAt e - now2 o) 1000 in
             bool_decide (secsLeft > OTP_EXPIRES_SECONDS cfg - 250))
        | None => false
        end)
       (reply 429 (Error "Try again later"));;
  let otp_ := generateOTP o 6 in
  let expiresAt := now3 o + OTP_EXPIRES_SECONDS cfg * 1000 in
  modify (set_otpStore
            <[email_ := {| otp := otp_; otp_expiresAt := expiresAt;
                           attempts := 0 |}]>);;
  let mailOptions :=
    {| mail_to := email_; mail_subject := "Your verification code";
       mail_code := otp_;
       mail_minutes := Js.ceil_div (OTP_EXPIRES_SECONDS cfg) 60 |} in
  modify (push_outbox mailOptions);;
  if mail_throws o
  then reply 500 (Error "Failed to send email")
  else reply 200 (Message "OTP sent").

(** [app.post('/verify-otp', ...)] *)
Definition verify_otp (cfg : Config) (o : Oracle)
    (email_f otp_f : option string) : Handler :=
  when (negb (Js.truthy email_f) || negb (Js.truthy otp_f))
       (reply 400 (Error "Email and OTP required"));;
  let email_ := Js.str email_f in
  let otp_ := Js.str otp_f in
  w ← get_world;
  match otpStore w !! email_ with
  | None => reply 400 (Error "No OTP requested or already used")
  | Some data =>
      if bool_decide (now1 o > otp_expiresAt data) then
        modify (set_otpStore (delete email_));;
        reply 400 (Error "OTP expired")
      else
        (* [data] is the stored object: the assignment updates the store *)
        let data := {| otp := otp data; otp_expiresAt := otp_expiresAt data;
                       attempts := Js.num_or (attempts data) 0 + 1 |} in
        modify (set_otpStore <[email_ := data]>);;
        if bool_decide (attempts data > 6) then
          modify (set_otpStore (delete email_));;
          reply 429 (Error "Too many attempts")
        else if negb (String.eqb otp_ (otp data)) then
          reply 400 (Error "Invalid OTP")
        else
          let token := generateToken o in
          modify (set_tokenStore
                    <[token := {| tok_email := email_;
                                  tok_expiresAt :=
                                    now2 o + TOKEN_EXPIRES_SECONDS cfg * 1000 |}]>);;
          modify (set_otpStore (delete email_));;
          reply 200 (WithToken "Verified" token)
  end.

(** [app.post('/register', ...)] *)
Definition register (o : Oracle) (name_f email_f token_f : option string)
    : Handler :=
  when (negb (Js.truthy name_f) || negb (Js.truthy email_f)
        || negb (Js.truthy token_f))
       (reply 400 (Error "Name, email and token required"));;
  let name_ := Js.str name_f in
  let email_ := Js.str email_f in
  let token := Js.str token_f in
  w ← get_world;
  let mapping := tokenStore w !! token in
  when (match mapping with
        | None => true
        | Some m => negb (String.eqb (tok_email m) email_)
        end)
       (reply 400 (Error "Invalid or expired token"));;
  users ← readUsers o;
  let exists_ := find_user email_ users in
  when (bool_decide (is_Some exists_))
       (reply 400 (Error "User already exists"));;
  let user := {| id := Js.toString_hex (randomBytes o 8); name := name_;
                 email := email_; createdAt := now1 o |} in
  let users := (users ++ [user])%list in
  ok ← writeUsers o users;
  when (negb ok) (reply 500 (Error "Failed to save user"));;
  modify (set_tokenStore (delete token));;
  reply 200 (WithUser "Registered" user).

(** [app.post('/exists', ...)] *)
Definition exists_user (o : Oracle) (email_f : option string) : Handler :=
  when (negb (Js.truthy email_f)) (reply 400 (Error "Email required"));;
  let email_ := Js.str email_f in
  users ← readUsers o;
  let exists_ := find_user email_ users in
  reply 200 (ExistsIs (bool_decide (is_Some exists_))).

(** [app.get('/me', ...)]; [header_f] is [req.headers['x-auth-token']] and
    [query_f] is [req.query.token]. *)
Definition me (o : Oracle) (header_f query_f : option string) : Handler :=
  let token_f := Js.or_else header_f query_f in
  when (negb (Js.truthy token_f)) (reply 401 (Error "Token required"));;
  let token := Js.str token_f in
  w ← get_world;
  match tokenStore w !! token with
  | None => reply 401 (Error "Invalid or expired token")
  | Some mapping =>
      users ← readUsers o;
      match find_user (tok_email mapping) users with
      | None => reply 404 (Error "User not found")
      | Some user => reply 200 (UserIs user)
      end
  end.

(** ** Requests, events and runs of the server *)

Inductive Request :=
| ReqSendOtp (email_f : option string)
| ReqVerifyOtp (email_f otp_f : option string)
| ReqRegister (name_f email_f token_f : option string)
| ReqExists (email_f : option string)
| ReqMe (header_f query_f : option string).

Definition handle (cfg : Config) (o : Oracle) (r : Request) : Handler :=
  match r with
  | ReqSendOtp e => send_otp cfg o e
  | ReqVerifyOtp e c => verify_otp cfg o e c
  | ReqRegister n e t => register o n e t
  | ReqExists e => exists_user o e
  | ReqMe h q => me o h q
  end.

(** What happens to the server: a request is served, or the cleanup
    interval fires. *)
Inductive Event :=
| Serve (o : Oracle) (r : Request)
| Sweep (now : Z).

Definition step (cfg : Config) (e : Event) (w : World) : World :=
  match e with
  | Serve o r => (run (handle cfg o r) w).2
  | Sweep now => janitor now w
  end.

Definition run_events (cfg : Config) (es : list Event) (w : World) : World :=
  fold_left (fun w e => step cfg e w) es w.

(** The world when the process starts. *)
Definition boot (d : Disk) : World :=
  {| otpStore := ∅; tokenStore := ∅; usersFile := d; outbox := [] |}.

(** Serving requests one after the other, keeping the responses. *)
Fixpoint serve_all (cfg : Config) (calls : list (Oracle * Request)) (w : World)
    : list Response * World :=
  match calls with
  | [] => ([], w)
  | (o, r) :: calls' =>
      let '(resp, w') := run (handle cfg o r) w in
      let '(resps, w'') := serve_all cfg calls' w' in
      (resp :: resps, w'')
  end.

(** The responses the handlers produce. *)
Definition resp (code : Z) (b : Body) : Response :=
  {| status := code; body := b |}.

Definition invalid_token : Response := resp 400 (Error "Invalid or expired token").
Definition invalid_otp : Response := resp 400 (Error "Invalid OTP").
Definition otp_expired : Response := resp 400 (Error "OTP expired").
Definition no_challenge : Response :=
  resp 400 (Error "No OTP requested or already used").
Definition too_many_attempts : Response := resp 429 (Error "Too many attempts").
Definition try_again_later : Response := resp 429 (Error "Try again later").
Definition user_exists : Response := resp 400 (Error "User already exists").
Definition save_failed : Response := resp 500 (Error "Failed to save user").

(** The user record [/register] builds. *)
Definition new_user (o : Oracle) (name_ email_ : string) : User :=
  {| id := Js.toString_hex (randomBytes o 8); name := name_;
     email := email_; createdAt := now1 o |}.

(** A challenge after [k] more counted attempts. *)
Definition bump (k : Z) (data : OtpEntry) : OtpEntry :=
  {| otp := otp data; otp_expiresAt := otp_expiresAt data;
     attempts := attempts data + k |}.

(** A [/verify-otp] call for [email_] with its oracle and code. *)
Definition verify_call (email_ : string) (oc : Oracle * string)
    : Oracle * Request :=
  (oc.1, ReqVerifyOtp (Some email_) (Some oc.2)).

(** The call is made while [data] is live, with a non-empty code that is
    not the stored one. *)
Definition wrong_for (data : OtpEntry) (oc : Oracle * string) : Prop :=
  ~ now1 oc.1 > otp_expiresAt data /\ oc.2 <> "" /\ oc.2 <> otp data.

(** The world after [/send-otp] has stored and mailed a new challenge. *)
Definition issued (cfg : Config) (o : Oracle) (email_ : string) (w : World)
    : World :=
  push_outbox
    {| mail_to := email_; mail_subject := "Your verification code";
       mail_code := generateOTP o 6;
       mail_minutes := Js.ceil_div (OTP_EXPIRES_SECONDS cfg) 60 |}
    (set_otpStore
       <[email_ := {| otp := generateOTP o 6;
                      otp_expiresAt := now3 o + OTP_EXPIRES_SECONDS cfg * 1000;
                      attempts := 0 |}]> w).

(** What [/register] does once the field and token checks have passed:
    lines 160 to 172 of the handler, on the outcome of [readUsers]. *)
Definition after_token_check (o : Oracle) (name_ email_ token : string)
    (w : World) : Response * World :=
  let '(users, d) := readUsers_disk o (usersFile w) in
  match find_user email_ users with
  | Some _ => (user_exists, set_usersFile d w)
  | None =>
      let user := new_user o name_ email_ in
      let users' := (users ++ [user])%list in
      if write_throws o
      then (save_failed, set_usersFile (left_by (write_leaves o) users' d) w)
      else
        (resp 200 (WithUser "Registered" user),
         set_tokenStore (delete token) (set_usersFile (Document users') w))
  end.

(** Every character of a string is a lower-case hexadecimal digit. *)
Fixpoint all_hex (s : string) : bool :=
  match s with
  | EmptyString => true
  | String c s' => Js.is_hex c && all_hex s'
  end.

(** Every character of a string is a decimal digit. *)
Fixpoint all_digits (s : string) : bool :=
  match s with
  | EmptyString => true
  | String c s' => Js.is_digit c && all_digits s'
  end.

(** No two users share an e-mail address up to case: their e-mails have
    different [toLowerCase] foldings. *)
Definition unique_emails (users : list User) : Prop :=
  NoDup (map (fun u => Js.toLowerCase (email u)) users).

(** A [/verify-otp] run of event [e] draws [T] as its token. *)
Definition mints (T : string) (e : Event) : Prop :=
  match e with
  | Serve o (ReqVerifyOtp _ _) => generateToken o = T
  | _ => False
  end.

(** The [/register] run of event [e], if it is one, presents the token
    [T] and is answered with status 200. *)
Definition registers_with (T : string) (e : Event) (w : World) : bool :=
  match e with
  | Serve o (ReqRegister n em t) =>
      bool_decide (Js.str t = T) &&
      bool_decide (status (run (register o n em t) w).1 = 200)
  | _ => false
  end.

(** How many events of a run are successful registrations with [T]. *)
Fixpoint successes (cfg : Config) (T : string) (es : list Event) (w : World)
    : nat :=
  match es with
  | [] => 0
  | e :: es' =>
      ((if registers_with T e w then 1 else 0) +
       successes cfg T es' (step cfg e w))%nat
  end.

(** ** Sample data

    A run of the server used to instantiate the statements below: the
    process boots without a users file, an OTP is issued to [alice] at
    time 1000 and verified at time 2000. *)

Definition sample_oracle (t : Z) : Oracle :=
  {| now1 := t; now2 := t; now3 := t;
     random_digit := fun i => i; random_byte := fun _ => Byte.xab;
     create_throws := false; create_leaves := Untouched;
     read_throws := false; write_throws := false; write_leaves := Untouched;
     mail_throws := false |}.

Definition alice : string := "a@x.com".
Definition alice_code : string := "012345".
Definition alice_token : string := "abababababababababababababababababababab".

Definition world_issued : World :=
  (run (send_otp default_config (sample_oracle 1000) (Some alice)) (boot NoFile)).2.

Definition world_verified : World :=
  (run (verify_otp default_config (sample_oracle 2000) (Some alice)
          (Some alice_code)) world_issued).2.

Definition sample_challenge : OtpEntry :=
  {| otp := alice_code; otp_expiresAt := 301000; attempts := 0 |}.

(** Alice registers at time 3000; she asks for a new OTP at 1000000 and
    verifies it at 1001000, which mints a token that expires at 1901000. *)
Definition world_login : World :=
  run_events default_config
    [Serve (sample_oracle 3000)
       (ReqRegister (Some "Alice") (Some alice) (Some alice_token));
     Serve (sample_oracle 1000000) (ReqSendOtp (Some alice));
     Serve (sample_oracle 1001000) (ReqVerifyOtp (Some alice) (Some alice_code))]
    world_verified.

(** An oracle at time [t] whose read of the users file throws. *)
Definition unreadable_oracle (t : Z) : Oracle :=
  {| now1 := t; now2 := t; now3 := t;
     random_digit := fun i => i; random_byte := fun _ => Byte.x01;
     create_throws := false; create_leaves := Untouched;
     read_throws := true; write_throws := false; write_leaves := Untouched;
     mail_throws := false |}.

(** An oracle at time [t] whose write of the users file throws. *)
Definition unwritable_oracle (t : Z) : Oracle :=
  {| now1 := t; now2 := t; now3 := t;
     random_digit := fun i => i; random_byte := fun _ => Byte.xab;
     create_throws := false; create_leaves := Untouched;
     read_throws := false; write_throws := true; write_leaves := Untouched;
     mail_throws := false |}.

(** ** Notions used by the lifecycle properties *)

(** The value of a hexadecimal digit, and the bytes a hex string spells;
    the inverse of [toString_hex], used to show that it loses nothing. *)
Definition unhex_digit (c : ascii) : option N :=
  let n := N_of_ascii c in
  if ((48 <=? n) && (n <=? 57))%N then Some (n - 48)%N
  else if ((97 <=? n) && (n <=? 102))%N then Some (n - 87)%N
  else None.

Fixpoint parse_hex (s : string) : option (list Byte.byte) :=
  match s with
  | EmptyString => Some []
  | String hi (String lo s') =>
      match unhex_digit hi, unhex_digit lo, parse_hex s' with
      | Some h, Some l, Some buf =>
          match Byte.of_N (h * 16 + l) with
          | Some b => Some (b :: buf)
          | None => None
          end
      | _, _, _ => None
      end
  | String _ EmptyString => None
  end.

(** A string of exactly six decimal digits. *)
Definition six_digits (s : string) : Prop :=
  String.length s = 6%nat /\ all_digits s = true.

(** A string of exactly [n] lower-case hexadecimal digits. *)
Definition hex_chars (n : nat) (s : string) : Prop :=
  String.length s = n /\ all_hex s = true.

(** What the handlers keep true of the entries of the two stores, of the
    mails they send and of the users they write. *)
Definition wf_challenge (email_ : string) (e : OtpEntry) : Prop :=
  email_ <> "" /\ six_digits (otp e) /\ 0 <= attempts e <= 6.

Definition wf_token (T : string) (m : TokenEntry) : Prop :=
  hex_chars 40 T /\ tok_email m <> "".

Definition wf_mail (cfg : Config) (m : Mail) : Prop :=
  mail_to m <> "" /\ six_digits (mail_code m) /\
  mail_subject m = "Your verification code" /\
  mail_minutes m = Js.ceil_div (OTP_EXPIRES_SECONDS cfg) 60.

Definition wf_user (u : User) : Prop :=
  hex_chars 16 (id u) /\ name u <> "" /\ email u <> "".

Definition wf_stores (cfg : Config) (w : World) : Prop :=
  map_Forall wf_challenge (otpStore w) /\
  map_Forall wf_token (tokenStore w) /\
  Forall (wf_mail cfg) (outbox w).

(** Event [e] is a [/send-otp] request for [email_]. *)
Definition issues_for (email_ : string) (e : Event) : Prop :=
  match e with
  | Serve _ (ReqSendOtp f) => Js.str f = email_
  | _ => False
  end.

(** Event [e] is a [/register] request whose read of the users file
    throws. *)
Definition register_read_fails (e : Event) : Prop :=
  match e with
  | Serve o (ReqRegister _ _ _) => read_throws o = true
  | _ => False
  end.

(** Event [e] is a [/register] request whose write of the users file
    throws after truncating the file. *)
Definition register_write_tears (e : Event) : Prop :=
  match e with
  | Serve o (ReqRegister _ _ _) => write_throws o = true /\ write_leaves o = Torn
  | _ => False
  end.

(** Event [e] is a [/send-otp] request that is answered 200 or 500, the
    two answers given after [sendMail] has been called. *)
Definition mails (cfg : Config) (e : Event) (w : World) : bool :=
  match e with
  | Serve o (ReqSendOtp f) =>
      let code := status (run (send_otp cfg o f) w).1 in
      bool_decide (code = 200) || bool_decide (code = 500)
  | _ => false
  end.

(** How many events of a run call [sendMail]. *)
Fixpoint mails_sent (cfg : Config) (es : list Event) (w : World) : nat :=
  match es with
  | [] => 0
  | e :: es' =>
      ((if mails cfg e w then 1 else 0) + mails_sent cfg es' (step cfg e w))%nat
  end.

(** The condition under which [/send-otp] answers "Try again later". *)
Definition resend_too_soon (cfg : Config) (o : Oracle) (email_ : string)
    (w : World) : Prop :=
  exists e, otpStore w !! email_ = Some e /\
            otp_expiresAt e > now1 o /\
            otp_expiresAt e - now2 o > (OTP_EXPIRES_SECONDS cfg - 250) * 1000.

(** More sample data: an oracle whose mail delivery fails, a user that is
    not Alice, and the world after Alice has registered. *)
Definition undeliverable_oracle (t : Z) : Oracle :=
  {| now1 := t; now2 := t; now3 := t;
     random_digit := fun i => (7 * i + 3)%nat; random_byte := fun _ => Byte.x5c;
     create_throws := false; create_leaves := Untouched;
     read_throws := false; write_throws := false; write_leaves := Untouched;
     mail_throws := true |}.

(** An oracle at time [t] whose write of the users file throws after it
    has truncated the file. *)
Definition torn_oracle (t : Z) : Oracle :=
  {| now1 := t; now2 := t; now3 := t;
     random_digit := fun i => i; random_byte := fun _ => Byte.x77;
     create_throws := false; create_leaves := Untouched;
     read_throws := false; write_throws := true; write_leaves := Torn;
     mail_throws := false |}.

Definition bob : string := "b@y.org".

Definition world_registered : World :=
  (run (register (sample_oracle 3000) (Some "Alice") (Some alice)
          (Some alice_token)) world_verified).2.

(** Alice is registered; Bob has asked for a code at time 10000 and
    verified it at 11000, which has minted a token for him. *)
Definition world_second : World :=
  run_events default_config
    [Serve (sample_oracle 10000) (ReqSendOtp (Some bob));
     Serve (sample_oracle 11000) (ReqVerifyOtp (Some bob) (Some alice_code))]
    world_registered.

(** ** Basic facts *)

Section Basics.

Lemma truthy_Some (f : option string) :
  Js.truthy f = true -> f = Some (Js.str f) /\ Js.str f <> "".
Proof.
  destruct f as [[|c s]|]; simpl; intros; try discriminate; split; congruence.
Qed.

Lemma truthy_of_nonempty (s : string) : s <> "" -> Js.truthy (Some s) = true.
Proof. destruct s; simpl; congruence. Qed.

Lemma num_or_zero (a : Z) : Js.num_or a 0 = a.
Proof. unfold Js.num_or. destruct (Z.eqb_spec a 0); congruence. Qed.

Lemma World_eq (w1 w2 : World) :
  otpStore w1 = otpStore w2 -> tokenStore w1 = tokenStore w2 ->
  usersFile w1 = usersFile w2 -> outbox w1 = outbox w2 -> w1 = w2.
Proof. destruct w1, w2; simpl; intros; subst; reflexivity. Qed.

Lemma bump_0 (data : OtpEntry) : bump 0 data = data.
Proof. destruct data; unfold bump; simpl; f_equal; lia. Qed.

Lemma bump_bump (j k : Z) (data : OtpEntry) :
  bump k (bump j data) = bump (j + k) data.
Proof. unfold bump; simpl; f_equal; lia. Qed.

(** [Math.ceil(a / 1000) > k] exactly when [a > 1000 * k]. *)
Lemma ceil_div_gt (a k : Z) : Js.ceil_div a 1000 > k <-> a > k * 1000.
Proof.
  unfold Js.ceil_div.
  pose proof (Z.div_mod (- a) 1000 ltac:(lia)) as Hdm.
  pose proof (Z.mod_pos_bound (- a) 1000 ltac:(lia)) as Hb.
  split; intros H; lia.
Qed.

Lemma hex_of_byte_hex (b : Byte.byte) : all_hex (Js.hex_of_byte b) = true.
Proof. destruct b; reflexivity. Qed.

Lemma toString_hex_cons (b : Byte.byte) (buf : list Byte.byte) :
  Js.toString_hex (b :: buf) =
  String (Js.hex_digit (Byte.to_N b / 16))
    (String (Js.hex_digit (Byte.to_N b mod 16)) (Js.toString_hex buf)).
Proof. reflexivity. Qed.

Lemma toString_hex_length (buf : list Byte.byte) :
  String.length (Js.toString_hex buf) = (2 * length buf)%nat.
Proof.
  induction buf as [|b buf IH]; [reflexivity|].
  rewrite toString_hex_cons. cbn [String.length length]. rewrite IH. lia.
Qed.

Lemma toString_hex_all_hex (buf : list Byte.byte) :
  all_hex (Js.toString_hex buf) = true.
Proof.
  induction buf as [|b buf IH]; [reflexivity|].
  pose proof (hex_of_byte_hex b) as Hb. rewrite toString_hex_cons.
  unfold Js.hex_of_byte in Hb. cbn [all_hex] in *.
  apply andb_prop in Hb as [H1 H2]. apply andb_prop in H2 as [H2 _].
  rewrite H1, H2, IH. reflexivity.
Qed.

Lemma generateToken_length (o : Oracle) :
  String.length (generateToken o) = 40%nat.
Proof.
  unfold generateToken. rewrite toString_hex_length.
  unfold randomBytes. rewrite length_map, length_seq. reflexivity.
Qed.

Lemma generateToken_hex (o : Oracle) : all_hex (generateToken o) = true.
Proof. apply toString_hex_all_hex. Qed.

Lemma digit_string_digit (n : nat) :
  all_digits (Js.digit_string (n mod 10)) = true.
Proof.
  pose proof (Nat.mod_upper_bound n 10 ltac:(lia)) as Hlt.
  remember (n mod 10)%nat as k eqn:Hk. clear Hk.
  do 10 (destruct k as [|k]; [reflexivity|]). lia.
Qed.

(** [generateOTP(6)] is a string of six decimal digits. *)
Lemma generateOTP_six_digits (o : Oracle) :
  String.length (generateOTP o 6) = 6%nat /\
  all_digits (generateOTP o 6) = true.
Proof.
  split; [reflexivity|].
  change (generateOTP o 6) with
    (String (ascii_of_nat (48 + random_digit o 0 mod 10))
    (String (ascii_of_nat (48 + random_digit o 1 mod 10))
    (String (ascii_of_nat (48 + random_digit o 2 mod 10))
    (String (ascii_of_nat (48 + random_digit o 3 mod 10))
    (String (ascii_of_nat (48 + random_digit o 4 mod 10))
    (String (ascii_of_nat (48 + random_digit o 5 mod 10)) ""))))))%nat.
  cbn [all_digits].
  repeat match goal with
         | |- context [Js.is_digit (ascii_of_nat (48 + ?n mod 10))] =>
             let H := fresh in
             pose proof (digit_string_digit n) as H;
             cbn [all_digits Js.digit_string] in H;
             rewrite andb_true_r in H; rewrite H; clear H
         end.
  reflexivity.
Qed.

(** The cleanup removes exactly the entries whose expiry has passed. *)
Lemma janitor_token (now : Z) (w : World) (T : string) :
  tokenStore (janitor now w) !! T =
  match tokenStore w !! T with
  | Some m => if bool_decide (tok_expiresAt m <= now) then None else Some m
  | None => None
  end.
Proof.
  unfold janitor. simpl. rewrite map_lookup_filter.
  destruct (tokenStore w !! T) as [m|]; simpl; [|reflexivity].
  case_bool_decide.
  - rewrite option_guard_False by (simpl; tauto). reflexivity.
  - rewrite option_guard_True by (simpl; tauto). reflexivity.
Qed.

Lemma janitor_otp (now : Z) (w : World) (email_ : string) :
  otpStore (janitor now w) !! email_ =
  match otpStore w !! email_ with
  | Some e => if bool_decide (otp_expiresAt e <= now) then None else Some e
  | None => None
  end.
Proof.
  unfold janitor. simpl. rewrite map_lookup_filter.
  destruct (otpStore w !! email_) as [e|]; simpl; [|reflexivity].
  case_bool_decide.
  - rewrite option_guard_False by (simpl; tauto). reflexivity.
  - rewrite option_guard_True by (simpl; tauto). reflexivity.
Qed.

End Basics.

Section Generators.

Lemma append_length (s1 s2 : string) :
  String.length (s1 +:+ s2) = (String.length s1 + String.length s2)%nat.
Proof.
  induction s1 as [|c s1 IH]; [reflexivity|].
  change (String c s1 +:+ s2) with (String c (s1 +:+ s2)).
  cbn [String.length]. rewrite IH. reflexivity.
Qed.

Lemma all_digits_append (s1 s2 : string) :
  all_digits (s1 +:+ s2) = all_digits s1 && all_digits s2.
Proof.
  induction s1 as [|c s1 IH]; [reflexivity|].
  change (String c s1 +:+ s2) with (String c (s1 +:+ s2)).
  cbn [all_digits]. rewrite IH, andb_assoc. reflexivity.
Qed.

Lemma generateOTP_loop (o : Oracle) (idx : list nat) :
  forall acc : string,
    let r := fold_left
               (fun otp i => otp +:+ Js.digit_string (random_digit o i mod 10))
               idx acc in
    String.length r = (String.length acc + length idx)%nat /\
    all_digits r = all_digits acc.
Proof.
  induction idx as [|i idx IH]; intros acc; cbn [fold_left length].
  - split; [lia | reflexivity].
  - destruct (IH (acc +:+ Js.digit_string (random_digit o i mod 10)))
      as [Hlen Hdig].
    cbv zeta. rewrite Hlen, Hdig, append_length, all_digits_append.
    rewrite digit_string_digit, andb_true_r.
    split; [cbn [Js.digit_string String.length]; lia | reflexivity].
Qed.

Lemma unhex_hex_of_byte (b : Byte.byte) (s : string) :
  parse_hex (Js.hex_of_byte b +:+ s) =
  match parse_hex s with Some buf => Some (b :: buf) | None => None end.
Proof. destruct b; reflexivity. Qed.

Lemma parse_toString_hex (buf : list Byte.byte) :
  parse_hex (Js.toString_hex buf) = Some buf.
Proof.
  induction buf as [|b buf IH]; [reflexivity|].
  cbn [Js.toString_hex]. rewrite unhex_hex_of_byte, IH. reflexivity.
Qed.




End Generators.

Ltac unfold_handler :=
  unfold run, handle, send_otp, verify_otp, register, exists_user, me, when,
    reply, modify, get_world, readUsers, writeUsers, mbind, M_bind, bind,
    mret, M_ret, ret; simpl.

(** ** [/verify-otp], case by case *)

Section VerifyOtp.

Variable cfg : Config.
Variable o : Oracle.
Variables email_f otp_f : option string.
Variable w : World.
Hypothesis email_given : Js.truthy email_f = true.
Hypothesis otp_given : Js.truthy otp_f = true.

Let email_ := Js.str email_f.

Lemma verify_no_challenge :
  otpStore w !! email_ = None ->
  run (verify_otp cfg o email_f otp_f) w = (no_challenge, w).
Proof.
  intros Hd. unfold_handler. rewrite email_given, otp_given. simpl.
  fold email_. rewrite Hd. reflexivity.
Qed.

Variable data : OtpEntry.
Hypothesis challenge : otpStore w !! email_ = Some data.

Lemma verify_expired :
  now1 o > otp_expiresAt data ->
  run (verify_otp cfg o email_f otp_f) w =
    (otp_expired, set_otpStore (delete email_) w).
Proof.
  intros Hexp. unfold_handler. rewrite email_given, otp_given. simpl.
  fold email_. rewrite challenge.
  rewrite bool_decide_eq_true_2 by done. reflexivity.
Qed.

Hypothesis live : ~ now1 o > otp_expiresAt data.

Lemma verify_too_many :
  attempts data + 1 > 6 ->
  run (verify_otp cfg o email_f otp_f) w =
    (too_many_attempts, set_otpStore (delete email_) w).
Proof.
  intros Hmany. unfold_handler. rewrite email_given, otp_given. simpl.
  fold email_. rewrite challenge.
  rewrite bool_decide_eq_false_2 by done. rewrite num_or_zero.
  rewrite bool_decide_eq_true_2 by done.
  f_equal. apply World_eq; simpl; try reflexivity.
  apply delete_insert_eq.
Qed.

Lemma verify_wrong :
  attempts data + 1 <= 6 -> Js.str otp_f <> otp data ->
  run (verify_otp cfg o email_f otp_f) w =
    (invalid_otp, set_otpStore <[email_ := bump 1 data]> w).
Proof.
  intros Hfew Hne. unfold_handler. rewrite email_given, otp_given. simpl.
  fold email_. rewrite challenge.
  rewrite bool_decide_eq_false_2 by done. rewrite num_or_zero.
  rewrite bool_decide_eq_false_2 by lia.
  apply String.eqb_neq in Hne. rewrite Hne. reflexivity.
Qed.

Lemma verify_match :
  attempts data + 1 <= 6 -> Js.str otp_f = otp data ->
  run (verify_otp cfg o email_f otp_f) w =
    (resp 200 (WithToken "Verified" (generateToken o)),
     set_otpStore (delete email_)
       (set_tokenStore
          <[generateToken o :=
              {| tok_email := email_;
                 tok_expiresAt := now2 o + TOKEN_EXPIRES_SECONDS cfg * 1000 |}]>
          w)).
Proof.
  intros Hfew Heq. unfold_handler. rewrite email_given, otp_given. simpl.
  fold email_. rewrite challenge.
  rewrite bool_decide_eq_false_2 by done. rewrite num_or_zero.
  rewrite bool_decide_eq_false_2 by lia.
  apply String.eqb_eq in Heq. rewrite Heq. simpl.
  f_equal. apply World_eq; simpl; try reflexivity.
  apply delete_insert_eq.
Qed.

End VerifyOtp.

(** ** Claims about [/verify-otp] *)

(** C4. When the stored challenge of the e-mail has [now > expiresAt], a
    [/verify-otp] call deletes the challenge and answers "OTP expired",
    whatever the submitted code and the attempts count are; the Token Store
    is left as it was, so no session token is minted. *)
Theorem verify_otp_expired_challenge
    (cfg : Config) (o : Oracle) (email_f otp_f : option string) (w : World)
    (data : OtpEntry) :
  Js.truthy email_f = true -> Js.truthy otp_f = true ->
  otpStore w !! Js.str email_f = Some data ->
  now1 o > otp_expiresAt data ->
  let r := run (verify_otp cfg o email_f otp_f) w in
  r.1 = otp_expired /\
  otpStore r.2 = delete (Js.str email_f) (otpStore w) /\
  otpStore r.2 !! Js.str email_f = None /\
  tokenStore r.2 = tokenStore w /\
  usersFile r.2 = usersFile w /\ outbox r.2 = outbox w.
Proof.
  intros He Hc Hd Hexp r. subst r.
  rewrite (verify_expired cfg o email_f otp_f w He Hc data Hd Hexp). simpl.
  repeat split. apply lookup_delete_eq.
Qed.


(** *** Counting attempts *)

Section Attempts.

Variable cfg : Config.
Variable email_ : string.
Hypothesis email_given : email_ <> "".

Lemma serve_all_app (calls1 calls2 : list (Oracle * Request)) (w : World) :
  serve_all cfg (calls1 ++ calls2) w =
  let '(r1, w1) := serve_all cfg calls1 w in
  let '(r2, w2) := serve_all cfg calls2 w1 in
  ((r1 ++ r2)%list, w2).
Proof.
  revert w. induction calls1 as [|[o r] calls1 IH]; intros w; simpl.
  - destruct (serve_all cfg calls2 w); reflexivity.
  - destruct (run (handle cfg o r) w) as [r0 w0]. rewrite IH.
    destruct (serve_all cfg calls1 w0) as [r1 w1].
    destruct (serve_all cfg calls2 w1); reflexivity.
Qed.

Lemma wrong_attempts (calls : list (Oracle * string)) :
  forall (w : World) (data : OtpEntry),
    otpStore w !! email_ = Some data ->
    Forall (wrong_for data) calls ->
    attempts data + Z.of_nat (length calls) <= 6 ->
    serve_all cfg (map (verify_call email_) calls) w =
      (repeat invalid_otp (length calls),
       set_otpStore <[email_ := bump (Z.of_nat (length calls)) data]> w).
Proof.
  induction calls as [|[o c] calls IH]; intros w data Hd Hall Hfew.
  - simpl. f_equal. apply World_eq; simpl; try reflexivity.
    rewrite bump_0. symmetry. apply insert_id. exact Hd.
  - inversion Hall as [|? ? [Hlive [Hc Hne]] Hall']; subst.
    simpl in Hlive, Hc, Hne. cbn [length] in Hfew.
    assert (Hfew1 : attempts data + 1 <= 6) by lia.
    assert (Hd1 : otpStore (set_otpStore <[email_ := bump 1 data]> w)
                    !! email_ = Some (bump 1 data))
      by apply lookup_insert_eq.
    cbn [map serve_all verify_call fst snd handle length repeat].
    rewrite (verify_wrong cfg o (Some email_) (Some c) w
               (truthy_of_nonempty _ email_given)
               (truthy_of_nonempty _ Hc) data Hd Hlive Hfew1 Hne).
    cbn [Js.str]. (* the stored entry is now [bump 1 data] *)
    rewrite (IH _ (bump 1 data) Hd1 Hall') by (simpl; lia).
    f_equal. apply World_eq; simpl; try reflexivity.
    rewrite insert_insert_eq, bump_bump. do 2 f_equal. lia.
Qed.

End Attempts.

(** C3. Each [/verify-otp] call on a live challenge counts the attempt
    before it compares the codes: when the count then exceeds 6 the
    challenge is deleted and the answer is the 429 "Too many attempts",
    even for the right code, and a wrong code within the limit leaves the
    challenge stored with the attempt counted.  In particular seven wrong
    verifications in a row of a new challenge give "Invalid OTP" six times
    and the 429 on the seventh, and one more verification finds no
    challenge. *)
Theorem verify_otp_attempt_limit (cfg : Config) (email_ : string) :
  email_ <> "" ->
  (forall (o : Oracle) (code : string) (w : World) (data : OtpEntry),
     code <> "" ->
     otpStore w !! email_ = Some data ->
     ~ now1 o > otp_expiresAt data ->
     let r := run (verify_otp cfg o (Some email_) (Some code)) w in
     (attempts data + 1 > 6 ->
        r = (too_many_attempts, set_otpStore (delete email_) w) /\
        otpStore r.2 !! email_ = None) /\
     (attempts data + 1 <= 6 -> code <> otp data ->
        r = (invalid_otp, set_otpStore <[email_ := bump 1 data]> w) /\
        otpStore r.2 !! email_ = Some (bump 1 data))) /\
  (forall (w : World) (data : OtpEntry) (wrong : list (Oracle * string))
          (o8 : Oracle) (code8 : string),
     otpStore w !! email_ = Some data ->
     attempts data = 0 ->
     length wrong = 7%nat ->
     Forall (wrong_for data) wrong ->
     code8 <> "" ->
     let r := serve_all cfg
                (map (verify_call email_) wrong ++
                 [(o8, ReqVerifyOtp (Some email_) (Some code8))]) w in
     r.1 = (repeat invalid_otp 6 ++ [too_many_attempts; no_challenge])%list /\
     otpStore r.2 !! email_ = None).
Proof.
  intros Hemail. split.
  - intros o code w data Hcode Hd Hlive r. subst r.
    pose proof (truthy_of_nonempty _ Hemail) as He.
    pose proof (truthy_of_nonempty _ Hcode) as Hc.
    split.
    + intros Hmany.
      rewrite (verify_too_many cfg o _ _ w He Hc data Hd Hlive Hmany).
      split; [reflexivity | apply lookup_delete_eq].
    + intros Hfew Hne.
      rewrite (verify_wrong cfg o _ _ w He Hc data Hd Hlive Hfew Hne).
      split; [reflexivity | apply lookup_insert_eq].
  - intros w data wrong o8 code8 Hd Hzero Hlen Hall Hcode8 r. subst r.
    assert (Hne : wrong <> []) by (intros ->; discriminate).
    destruct (exists_last Hne) as (first6 & [o7 c7] & ->). clear Hne.
    rewrite length_app in Hlen. simpl in Hlen.
    apply Forall_app in Hall as [Hall6 Hall7].
    inversion Hall7 as [|? ? [Hlive7 [Hc7 _]] _]; subst. simpl in Hlive7, Hc7.
    rewrite map_app, <- app_assoc, serve_all_app.
    rewrite (wrong_attempts cfg email_ Hemail first6 w data Hd Hall6) by lia.
    replace (length first6) with 6%nat by lia.
    change (Z.of_nat 6) with 6.
    cbn [map app serve_all verify_call fst snd handle].
    assert (Hd6 : otpStore (set_otpStore <[email_ := bump 6 data]> w)
                    !! email_ = Some (bump 6 data))
      by apply lookup_insert_eq.
    rewrite (verify_too_many cfg o7 (Some email_) (Some c7) _
               (truthy_of_nonempty _ Hemail) (truthy_of_nonempty _ Hc7)
               (bump 6 data) Hd6 Hlive7) by (simpl; lia).
    rewrite (verify_no_challenge cfg o8 (Some email_) (Some code8) _
               (truthy_of_nonempty _ Hemail) (truthy_of_nonempty _ Hcode8))
      by apply lookup_delete_eq.
    split; [reflexivity | apply lookup_delete_eq].
Qed.

(** ** [/send-otp], case by case *)

Section SendOtp.

Variable cfg : Config.
Variable o : Oracle.
Variable email_f : option string.
Variable w : World.
Hypothesis email_given : Js.truthy email_f = true.

Let email_ := Js.str email_f.

Lemma send_rate_limited (e : OtpEntry) :
  otpStore w !! email_ = Some e ->
  otp_expiresAt e > now1 o ->
  otp_expiresAt e - now2 o > (OTP_EXPIRES_SECONDS cfg - 250) * 1000 ->
  run (send_otp cfg o email_f) w = (try_again_later, w).
Proof.
  intros He Hlive Hleft. unfold_handler. rewrite email_given. simpl.
  fold email_. rewrite He.
  rewrite bool_decide_eq_true_2 by done.
  rewrite bool_decide_eq_true_2 by (apply ceil_div_gt; exact Hleft).
  reflexivity.
Qed.

Lemma send_otp_cases :
  run (send_otp cfg o email_f) w = (try_again_later, w) \/
  run (send_otp cfg o email_f) w =
    (if mail_throws o then resp 500 (Error "Failed to send email")
     else resp 200 (Message "OTP sent"), issued cfg o email_ w).
Proof.
  unfold_handler. rewrite email_given. simpl. fold email_.
  destruct (otpStore w !! email_) as [e|]; simpl.
  - destruct (bool_decide (otp_expiresAt e > now1 o)); simpl.
    + destruct (bool_decide _); simpl; [left; reflexivity|].
      right. destruct (mail_throws o); reflexivity.
    + right. destruct (mail_throws o); reflexivity.
  - right. destruct (mail_throws o); reflexivity.
Qed.

End SendOtp.

(** ** Claims about [/send-otp] *)

(** C5. When the e-mail has a stored challenge that has not expired and
    whose remaining lifetime exceeds [OTP_EXPIRES_SECONDS - 250] seconds,
    [/send-otp] answers 429 "Try again later" and leaves the world as it
    was: the challenge is unchanged and [sendMail] is not called.  With the
    default lifetime of 300 seconds, a second [/send-otp] at most
    [300 - 250] seconds after an OTP was issued is rejected in this way. *)
Theorem send_otp_rate_limit :
  (forall (cfg : Config) (o : Oracle) (email_ : string) (w : World)
          (e : OtpEntry),
     email_ <> "" ->
     otpStore w !! email_ = Some e ->
     otp_expiresAt e > now1 o ->
     otp_expiresAt e - now2 o > (OTP_EXPIRES_SECONDS cfg - 250) * 1000 ->
     let r := run (send_otp cfg o (Some email_)) w in
     r = (try_again_later, w) /\
     otpStore r.2 !! email_ = Some e /\ outbox r.2 = outbox w) /\
  (forall (o1 o2 : Oracle) (email_ : string) (w : World),
     email_ <> "" ->
     let r1 := run (send_otp default_config o1 (Some email_)) w in
     status r1.1 = 200 ->
     now1 o2 - now3 o1 <= (300 - 250) * 1000 ->
     now2 o2 - now3 o1 <= (300 - 250) * 1000 ->
     run (send_otp default_config o2 (Some email_)) r1.2 =
       (try_again_later, r1.2)).
Proof.
  split.
  - intros cfg o email_ w e Hemail He Hlive Hleft r. subst r.
    rewrite (send_rate_limited cfg o (Some email_) w
               (truthy_of_nonempty _ Hemail) e He Hlive Hleft).
    split; [reflexivity|]. split; [exact He | reflexivity].
  - intros o1 o2 email_ w Hemail r1 Hok H1 H2. subst r1.
    pose proof (truthy_of_nonempty _ Hemail) as Ht.
    destruct (send_otp_cases default_config o1 (Some email_) w Ht) as [Hr|Hr];
      rewrite Hr in Hok |- *; [discriminate Hok|].
    cbn [snd Js.str].
    apply (send_rate_limited default_config o2 (Some email_) _ Ht
             {| otp := generateOTP o1 6;
                otp_expiresAt := now3 o1 + 300 * 1000; attempts := 0 |}).
    + apply lookup_insert_eq.
    + simpl. lia.
    + simpl. lia.
Qed.

(** ** The users file, case by case *)

Section ReadUsers.

Variable o : Oracle.

Lemma readUsers_ok (users : list User) :
  read_throws o = false ->
  readUsers_disk o (Document users) = (users, Document users).
Proof. intros H. unfold readUsers_disk. simpl. rewrite H. reflexivity. Qed.

Lemma readUsers_read_throws (users : list User) :
  read_throws o = true ->
  readUsers_disk o (Document users) = ([], Document users).
Proof. intros H. unfold readUsers_disk. simpl. rewrite H. reflexivity. Qed.

Lemma readUsers_creates :
  create_throws o = false -> readUsers_disk o NoFile = ([], Document []).
Proof. intros H. unfold readUsers_disk. simpl. rewrite H. reflexivity. Qed.

Lemma readUsers_create_throws :
  create_throws o = true ->
  readUsers_disk o NoFile = ([], left_by (create_leaves o) [] NoFile).
Proof. intros H. unfold readUsers_disk. simpl. rewrite H. reflexivity. Qed.

(** [readUsers] returns what the file holds or the empty array, and
    leaves the stored users as they were. *)
Lemma readUsers_disk_cases (d : Disk) :
  ((readUsers_disk o d).1 = stored d \/ (readUsers_disk o d).1 = []) /\
  stored (readUsers_disk o d).2 = stored d.
Proof.
  unfold readUsers_disk. destruct d as [|users|]; simpl.
  - destruct (create_throws o); simpl; [|auto].
    destruct (create_leaves o); simpl; auto.
  - destruct (read_throws o); simpl; auto.
  - destruct (read_throws o); simpl; auto.
Qed.

End ReadUsers.

(** ** [/register], case by case *)

Section RegisterCases.

Variable o : Oracle.
Variables name_f email_f token_f : option string.
Variable w : World.
Hypothesis name_given : Js.truthy name_f = true.
Hypothesis email_given : Js.truthy email_f = true.
Hypothesis token_given : Js.truthy token_f = true.

Let name_ := Js.str name_f.
Let email_ := Js.str email_f.
Let token := Js.str token_f.

Lemma register_unknown_token :
  tokenStore w !! token = None ->
  run (register o name_f email_f token_f) w = (invalid_token, w).
Proof.
  intros Hm. unfold_handler.
  rewrite name_given, email_given, token_given. simpl.
  fold token. rewrite Hm. reflexivity.
Qed.

Lemma register_other_email (m : TokenEntry) :
  tokenStore w !! token = Some m -> tok_email m <> email_ ->
  run (register o name_f email_f token_f) w = (invalid_token, w).
Proof.
  intros Hm Hne. unfold_handler.
  rewrite name_given, email_given, token_given. simpl.
  fold token email_. rewrite Hm.
  apply String.eqb_neq in Hne. rewrite Hne. reflexivity.
Qed.

Lemma register_valid_token (m : TokenEntry) :
  tokenStore w !! token = Some m -> tok_email m = email_ ->
  run (register o name_f email_f token_f) w =
    after_token_check o name_ email_ token w.
Proof.
  intros Hm Heq. unfold_handler. unfold after_token_check.
  rewrite name_given, email_given, token_given. simpl.
  fold token email_ name_. rewrite Hm.
  apply String.eqb_eq in Heq. rewrite Heq. simpl.
  destruct (readUsers_disk o (usersFile w)) as [users d]. simpl.
  destruct (find_user email_ users) as [u|] eqn:Hfind.
  - rewrite bool_decide_eq_true_2 by eauto. reflexivity.
  - rewrite bool_decide_eq_false_2 by (intros [? ?]; discriminate).
    unfold writeUsers_disk, fs_writeJson.
    destruct (write_throws o); reflexivity.
Qed.

End RegisterCases.

Lemma after_token_check_not_invalid (o : Oracle) (name_ email_ token : string)
    (w : World) :
  (after_token_check o name_ email_ token w).1 <> invalid_token.
Proof.
  unfold after_token_check.
  destruct (readUsers_disk o (usersFile w)) as [users d].
  destruct (find_user email_ users); [discriminate|].
  destruct (write_throws o); discriminate.
Qed.

(** Every [/register] run takes one of three paths. *)
Lemma register_cases (o : Oracle) (name_f email_f token_f : option string)
    (w : World) :
  let r := run (register o name_f email_f token_f) w in
  r = (resp 400 (Error "Name, email and token required"), w) \/
  r = (invalid_token, w) \/
  (Js.truthy name_f = true /\ Js.truthy email_f = true /\
   Js.truthy token_f = true /\
   (exists m, tokenStore w !! Js.str token_f = Some m /\
              tok_email m = Js.str email_f) /\
   r = after_token_check o (Js.str name_f) (Js.str email_f) (Js.str token_f) w).
Proof.
  intros r. subst r.
  destruct (Js.truthy name_f) eqn:Hn;
    [destruct (Js.truthy email_f) eqn:He;
       [destruct (Js.truthy token_f) eqn:Ht|]|];
    try (left; unfold_handler; rewrite ?Hn, ?He, ?Ht; reflexivity).
  destruct (tokenStore w !! Js.str token_f) as [m|] eqn:Hm.
  - destruct (String.eqb_spec (tok_email m) (Js.str email_f)) as [Heq|Hne].
    + right; right. split_and!; try reflexivity; [eauto|].
      apply (register_valid_token o _ _ _ w Hn He Ht m Hm Heq).
    + right; left. apply (register_other_email o _ _ _ w Hn He Ht m Hm Hne).
  - right; left. apply (register_unknown_token o _ _ _ w Hn He Ht Hm).
Qed.

(** ** Claims about the token check of [/register] *)

(** C1, as the code has it.  For a [/register] request with its three
    fields given: when the token is in the Token Store and the stored
    e-mail is exactly the supplied one, registration proceeds, whatever the
    token's [expiresAt] is: the answer is never "Invalid or expired token"
    but the one the directory decides (duplicate user, failed write, or the
    new user written and the token consumed); when the token is absent or
    stored for another e-mail, the answer is 400 "Invalid or expired token"
    and nothing in the world changes. *)
Theorem register_token_gate
    (o : Oracle) (name_f email_f token_f : option string) (w : World) :
  Js.truthy name_f = true -> Js.truthy email_f = true ->
  Js.truthy token_f = true ->
  let name_ := Js.str name_f in
  let email_ := Js.str email_f in
  let token := Js.str token_f in
  let r := run (register o name_f email_f token_f) w in
  (forall m, tokenStore w !! token = Some m -> tok_email m = email_ ->
     let users := (readUsers_disk o (usersFile w)).1 in
     r.1 <> invalid_token /\
     (is_Some (find_user email_ users) -> r.1 = user_exists) /\
     (find_user email_ users = None -> write_throws o = true ->
        r.1 = save_failed) /\
     (find_user email_ users = None -> write_throws o = false ->
        r.1 = resp 200 (WithUser "Registered" (new_user o name_ email_)) /\
        usersFile r.2 = Document (users ++ [new_user o name_ email_])%list /\
        tokenStore r.2 = delete token (tokenStore w))) /\
  (tokenStore w !! token = None -> r = (invalid_token, w)) /\
  (forall m, tokenStore w !! token = Some m -> tok_email m <> email_ ->
     r = (invalid_token, w)) /\
  (forall now m, tokenStore w !! token = Some m -> tok_expiresAt m <= now ->
     run (register o name_f email_f token_f) (janitor now w) =
       (invalid_token, janitor now w)).
Proof.
  intros Hn He Ht name_ email_ token r. subst r. split; [|split; [|split]].
  - intros m Hm Heq users. subst users.
    rewrite (register_valid_token o _ _ _ w Hn He Ht m Hm Heq).
    fold name_ email_ token.
    split; [apply after_token_check_not_invalid|].
    unfold after_token_check.
    destruct (readUsers_disk o (usersFile w)) as [users d]. cbn [fst].
    destruct (find_user email_ users) as [u|]; cbn [fst snd].
    + split; [reflexivity|].
      split; [discriminate|]. discriminate.
    + split; [intros [? ?]; discriminate|].
      destruct (write_throws o); cbn [fst snd].
      * split; [reflexivity | discriminate].
      * split; [discriminate|]. intros _ _.
        split; [reflexivity|]. split; reflexivity.
  - apply (register_unknown_token o _ _ _ w Hn He Ht).
  - intros m. apply (register_other_email o _ _ _ w Hn He Ht m).
  - intros now m Hm Hexp.
    apply (register_unknown_token o _ _ _ (janitor now w) Hn He Ht).
    rewrite janitor_token. fold token. rewrite Hm.
    rewrite bool_decide_eq_true_2 by exact Hexp. reflexivity.
Qed.

(** ** Claims about persistence in [/register] *)

(** C8, as the code has it.  When a [/register] request has passed the
    token and duplicate checks and writing the users file fails, the answer
    is 500 "Failed to save user" and the token stays in the Token Store, so
    that the same request succeeds on a retry whose write goes through.
    The handler writes nothing after the failed write: the file is what
    that write has left, and the stored users are as before whenever the
    failed write has left the file untouched.  In every [/register] run a
    token leaves the Token Store only together with a successful write of
    the directory. *)
Theorem register_persist_failure_keeps_token :
  (forall (o : Oracle) (name_f email_f token_f : option string) (w : World)
          (m : TokenEntry),
     Js.truthy name_f = true -> Js.truthy email_f = true ->
     Js.truthy token_f = true ->
     tokenStore w !! Js.str token_f = Some m ->
     tok_email m = Js.str email_f ->
     find_user (Js.str email_f) (readUsers_disk o (usersFile w)).1 = None ->
     write_throws o = true ->
     let r := run (register o name_f email_f token_f) w in
     let read := readUsers_disk o (usersFile w) in
     r.1 = save_failed /\ status r.1 = 500 /\
     tokenStore r.2 = tokenStore w /\ otpStore r.2 = otpStore w /\
     usersFile r.2 =
       left_by (write_leaves o)
         (read.1 ++ [new_user o (Js.str name_f) (Js.str email_f)])%list
         read.2 /\
     (write_leaves o = Untouched -> directory r.2 = directory w) /\
     (forall o' : Oracle,
        find_user (Js.str email_f) (readUsers_disk o' (usersFile r.2)).1 = None ->
        write_throws o' = false ->
        let r' := run (register o' name_f email_f token_f) r.2 in
        r'.1 = resp 200 (WithUser "Registered"
                          (new_user o' (Js.str name_f) (Js.str email_f))) /\
        tokenStore r'.2 !! Js.str token_f = None)) /\
  (forall (o : Oracle) (name_f email_f token_f : option string) (w : World)
          (T : string),
     let r := run (register o name_f email_f token_f) w in
     is_Some (tokenStore w !! T) -> tokenStore r.2 !! T = None ->
     write_throws o = false /\ T = Js.str token_f /\
     exists users,
       r.1 = resp 200 (WithUser "Registered"
                        (new_user o (Js.str name_f) (Js.str email_f))) /\
       usersFile r.2 =
         Document (users ++ [new_user o (Js.str name_f) (Js.str email_f)])%list).
Proof.
  split.
  - intros o name_f email_f token_f w m Hn He Ht Hm Heq Hfind Hthrow r read.
    subst r read.
    rewrite (register_valid_token o _ _ _ w Hn He Ht m Hm Heq).
    unfold after_token_check.
    pose proof (readUsers_disk_cases o (usersFile w)) as [_ Hdir].
    destruct (readUsers_disk o (usersFile w)) as [users d].
    simpl in Hfind, Hdir. rewrite Hfind, Hthrow. cbn [fst snd].
    do 4 (split; [reflexivity|]). split; [reflexivity|].
    split; [intros Hleft; unfold directory; simpl; rewrite Hleft; exact Hdir|].
    intros o' Hfind' Hok'.
    match goal with
    | |- context [run _ ?w'] =>
        rewrite (register_valid_token o' _ _ _ w' Hn He Ht m Hm Heq)
    end.
    unfold after_token_check.
    match goal with
    | |- context [readUsers_disk o' ?d'] =>
        destruct (readUsers_disk o' d') as [users' d'']
    end.
    simpl in Hfind'. rewrite Hfind', Hok'. cbn [fst snd].
    split; [reflexivity | apply lookup_delete_eq].
  - intros o name_f email_f token_f w T r [m Hm] Hgone.
    destruct (register_cases o name_f email_f token_f w)
      as [Hr|[Hr|(_ & _ & _ & _ & Hr)]]; fold r in Hr;
      try (rewrite Hr in Hgone; simpl in Hgone; congruence).
    rewrite Hr in Hgone |- *. unfold after_token_check in *.
    destruct (readUsers_disk o (usersFile w)) as [users d].
    destruct (find_user (Js.str email_f) users);
      [simpl in Hgone; congruence|].
    destruct (write_throws o); [simpl in Hgone; congruence|].
    simpl in Hgone. split; [reflexivity|]. split.
    + destruct (decide (Js.str token_f = T)) as [<-|Hne]; [reflexivity|].
      rewrite lookup_delete_ne in Hgone by exact Hne. congruence.
    + exists users. split; reflexivity.
Qed.

(** ** [/exists] and [/me], case by case *)

Section Lookups.

Variable o : Oracle.
Variable w : World.

Lemma exists_user_run (email_f : option string) :
  Js.truthy email_f = true ->
  run (exists_user o email_f) w =
    (resp 200
       (ExistsIs (bool_decide
          (is_Some (find_user (Js.str email_f)
                      (readUsers_disk o (usersFile w)).1)))),
     set_usersFile (readUsers_disk o (usersFile w)).2 w).
Proof.
  intros He. unfold_handler. rewrite He. simpl.
  destruct (readUsers_disk o (usersFile w)) as [users d]. reflexivity.
Qed.

Lemma me_no_token (header_f query_f : option string) :
  Js.truthy (Js.or_else header_f query_f) = false ->
  run (me o header_f query_f) w = (resp 401 (Error "Token required"), w).
Proof. intros Ht. unfold_handler. rewrite Ht. reflexivity. Qed.

Variables header_f query_f : option string.
Hypothesis token_given : Js.truthy (Js.or_else header_f query_f) = true.

Let token := Js.str (Js.or_else header_f query_f).

Lemma me_unknown_token :
  tokenStore w !! token = None ->
  run (me o header_f query_f) w = (resp 401 (Error "Invalid or expired token"), w).
Proof.
  intros Hm. unfold_handler. rewrite token_given. simpl.
  fold token. rewrite Hm. reflexivity.
Qed.

Lemma me_known_token (mapping : TokenEntry) :
  tokenStore w !! token = Some mapping ->
  run (me o header_f query_f) w =
    (match find_user (tok_email mapping)
             (readUsers_disk o (usersFile w)).1 with
     | None => resp 404 (Error "User not found")
     | Some user => resp 200 (UserIs user)
     end,
     set_usersFile (readUsers_disk o (usersFile w)).2 w).
Proof.
  intros Hm. unfold_handler. rewrite token_given. simpl.
  fold token. rewrite Hm.
  destruct (readUsers_disk o (usersFile w)) as [users d]. simpl.
  destruct (find_user (tok_email mapping) users); reflexivity.
Qed.

End Lookups.

(** ** Claims about [readUsers] *)

(** C10. [readUsers] returns the empty array whenever reading the users
    file throws.  Hence, while the file exists and cannot be read,
    [/exists] answers [exists: false] for every e-mail, and a [/register]
    with a valid token whose write succeeds leaves a users file that holds
    the new user alone. *)
Theorem readUsers_swallows_read_failure :
  (forall (o : Oracle) (d : Disk),
     fs_readJson (read_throws o) d = Throws -> (readUsers_disk o d).1 = []) /\
  (forall (o : Oracle) (email_ : string) (w : World) (users : list User),
     email_ <> "" -> usersFile w = Document users -> read_throws o = true ->
     run (exists_user o (Some email_)) w = (resp 200 (ExistsIs false), w)) /\
  (forall (o : Oracle) (name_ email_ token : string) (w : World)
          (users : list User) (m : TokenEntry),
     name_ <> "" -> email_ <> "" -> token <> "" ->
     usersFile w = Document users -> read_throws o = true ->
     write_throws o = false ->
     tokenStore w !! token = Some m -> tok_email m = email_ ->
     let r := run (register o (Some name_) (Some email_) (Some token)) w in
     r.1 = resp 200 (WithUser "Registered" (new_user o name_ email_)) /\
     usersFile r.2 = Document [new_user o name_ email_] /\
     tokenStore r.2 = delete token (tokenStore w)).
Proof.
  split_and!.
  - intros o d Hthrows. unfold readUsers_disk.
    destruct d as [|users|]; simpl in *.
    + destruct (create_throws o); reflexivity.
    + rewrite Hthrows. reflexivity.
    + rewrite Hthrows. reflexivity.
  - intros o email_ w users Hemail Hfile Hthrows.
    rewrite (exists_user_run o w _ (truthy_of_nonempty _ Hemail)).
    rewrite Hfile, (readUsers_read_throws o users Hthrows). simpl.
    f_equal. apply World_eq; simpl; try reflexivity. symmetry. exact Hfile.
  - intros o name_ email_ token w users m Hn He Ht Hfile Hthrows Hok Hm Heq r.
    subst r.
    rewrite (register_valid_token o _ _ _ w (truthy_of_nonempty _ Hn)
               (truthy_of_nonempty _ He) (truthy_of_nonempty _ Ht) m Hm Heq).
    unfold after_token_check. simpl.
    rewrite Hfile, (readUsers_read_throws o users Hthrows). simpl.
    rewrite Hok. split_and!; reflexivity.
Qed.

(** ** Claims about [/me] *)

(** C9, as the code has it.  [GET /me] answers 401 when no token is given
    and when the token is not in the Token Store.  A token that is in the
    Token Store is honoured whatever its [expiresAt] is: the answer is 404
    when [readUsers] returns no user whose e-mail equals the token's up to
    case, and otherwise the first such user.  The stores and the stored
    users are left as they were.  An expired token gets the 401 once a run
    of the cleanup interval has removed it. *)
Theorem me_lookup (o : Oracle) (header_f query_f : option string) (w : World) :
  let token_f := Js.or_else header_f query_f in
  let r := run (me o header_f query_f) w in
  (Js.truthy token_f = false ->
     r = (resp 401 (Error "Token required"), w)) /\
  (Js.truthy token_f = true -> tokenStore w !! Js.str token_f = None ->
     r = (resp 401 (Error "Invalid or expired token"), w)) /\
  (forall mapping : TokenEntry,
     Js.truthy token_f = true ->
     tokenStore w !! Js.str token_f = Some mapping ->
     let users := (readUsers_disk o (usersFile w)).1 in
     (find_user (tok_email mapping) users = None ->
        r.1 = resp 404 (Error "User not found")) /\
     (forall u, find_user (tok_email mapping) users = Some u ->
        r.1 = resp 200 (UserIs u) /\ In u users /\
        Js.toLowerCase (email u) = Js.toLowerCase (tok_email mapping)) /\
     tokenStore r.2 = tokenStore w /\ otpStore r.2 = otpStore w /\
     directory r.2 = directory w) /\
  (forall (now : Z) (mapping : TokenEntry),
     Js.truthy token_f = true ->
     tokenStore w !! Js.str token_f = Some mapping ->
     tok_expiresAt mapping <= now ->
     run (me o header_f query_f) (janitor now w) =
       (resp 401 (Error "Invalid or expired token"), janitor now w)).
Proof.
  intros token_f r. subst token_f r. split; [|split; [|split]].
  - apply me_no_token.
  - apply me_unknown_token.
  - intros mapping Ht Hm users.
    rewrite (me_known_token o w header_f query_f Ht mapping Hm).
    fold users. cbn [fst snd]. split; [|split; [|split; [|split]]].
    + intros ->. reflexivity.
    + intros u Hu. rewrite Hu. split; [reflexivity|].
      apply find_some in Hu as [Hin Heq].
      split; [exact Hin | apply String.eqb_eq; exact Heq].
    + reflexivity.
    + reflexivity.
    + apply (readUsers_disk_cases o (usersFile w)).
  - intros now mapping Ht Hm Hexp.
    apply (me_unknown_token o (janitor now w) header_f query_f Ht).
    rewrite janitor_token, Hm.
    rewrite bool_decide_eq_true_2 by exact Hexp. reflexivity.
Qed.

(** ** What each event leaves untouched *)

Section Frames.

Variable cfg : Config.

Lemma send_otp_frame (o : Oracle) (email_f : option string) (w : World) :
  let r := run (send_otp cfg o email_f) w in
  tokenStore r.2 = tokenStore w /\ usersFile r.2 = usersFile w.
Proof.
  destruct (Js.truthy email_f) eqn:He.
  - destruct (send_otp_cases cfg o email_f w He) as [-> | ->];
      split; reflexivity.
  - unfold_handler. rewrite He. split; reflexivity.
Qed.

Lemma verify_otp_frame (o : Oracle) (email_f otp_f : option string)
    (w : World) :
  let r := run (verify_otp cfg o email_f otp_f) w in
  usersFile r.2 = usersFile w /\
  (tokenStore r.2 = tokenStore w \/
   exists m, tokenStore r.2 = <[generateToken o := m]> (tokenStore w)).
Proof.
  unfold_handler.
  destruct (negb (Js.truthy email_f) || negb (Js.truthy otp_f)); simpl;
    [split; [reflexivity | left; reflexivity]|].
  destruct (otpStore w !! Js.str email_f) as [data|]; simpl;
    [|split; [reflexivity | left; reflexivity]].
  repeat (match goal with
          | |- context [if ?b then _ else _] => destruct b; simpl
          end);
    (split; [reflexivity|]); try (left; reflexivity).
  right. eexists. reflexivity.
Qed.

Lemma after_token_check_frame (o : Oracle) (name_ email_ token : string)
    (w : World) :
  let r := after_token_check o name_ email_ token w in
  (tokenStore r.2 = tokenStore w \/
   tokenStore r.2 = delete token (tokenStore w)) /\
  (directory r.2 = directory w \/ directory r.2 = [] \/
   exists users u,
     directory r.2 = (users ++ [u])%list /\ email u = email_ /\
     find_user email_ users = None /\
     (users = directory w \/ users = [])).
Proof.
  unfold after_token_check.
  pose proof (readUsers_disk_cases o (usersFile w)) as [Hread Hdir].
  destruct (readUsers_disk o (usersFile w)) as [users d].
  simpl in Hread, Hdir.
  destruct (find_user email_ users) eqn:Hfind; simpl;
    [split; [left; reflexivity | left; exact Hdir]|].
  assert (Hnew : exists users0 u,
            (users ++ [new_user o name_ email_])%list = (users0 ++ [u])%list /\
            email u = email_ /\ find_user email_ users0 = None /\
            (users0 = directory w \/ users0 = []))
    by (exists users, (new_user o name_ email_); split_and!; auto).
  destruct (write_throws o); simpl.
  - split; [left; reflexivity|].
    destruct (write_leaves o); simpl;
      [left; exact Hdir | right; left; reflexivity | right; right; exact Hnew].
  - split; [right; reflexivity|]. right; right. exact Hnew.
Qed.

Lemma register_frame (o : Oracle) (name_f email_f token_f : option string)
    (w : World) :
  let r := run (register o name_f email_f token_f) w in
  (tokenStore r.2 = tokenStore w \/
   tokenStore r.2 = delete (Js.str token_f) (tokenStore w)) /\
  (directory r.2 = directory w \/ directory r.2 = [] \/
   exists users u,
     directory r.2 = (users ++ [u])%list /\
     email u = Js.str email_f /\
     find_user (Js.str email_f) users = None /\
     (users = directory w \/ users = [])).
Proof.
  destruct (register_cases o name_f email_f token_f w)
    as [Hr|[Hr|(_ & _ & _ & _ & Hr)]]; cbv zeta in *; rewrite Hr;
    try (split; left; reflexivity).
  apply after_token_check_frame.
Qed.

Lemma exists_user_frame (o : Oracle) (email_f : option string) (w : World) :
  let r := run (exists_user o email_f) w in
  tokenStore r.2 = tokenStore w /\ directory r.2 = directory w.
Proof.
  destruct (Js.truthy email_f) eqn:He.
  - rewrite (exists_user_run o w email_f He). split; [reflexivity|].
    apply (readUsers_disk_cases o (usersFile w)).
  - unfold_handler. rewrite He. split; reflexivity.
Qed.

Lemma me_frame (o : Oracle) (header_f query_f : option string) (w : World) :
  let r := run (me o header_f query_f) w in
  tokenStore r.2 = tokenStore w /\ directory r.2 = directory w.
Proof.
  destruct (Js.truthy (Js.or_else header_f query_f)) eqn:Ht.
  - destruct (tokenStore w !! Js.str (Js.or_else header_f query_f))
      as [m|] eqn:Hm.
    + rewrite (me_known_token o w header_f query_f Ht m Hm).
      split; [reflexivity|]. apply (readUsers_disk_cases o (usersFile w)).
    + rewrite (me_unknown_token o w header_f query_f Ht Hm).
      split; reflexivity.
  - rewrite (me_no_token o w header_f query_f Ht). split; reflexivity.
Qed.

(** An event that does not mint [T] does not put [T] into the Token
    Store. *)
Lemma step_keeps_absent (T : string) (e : Event) (w : World) :
  ~ mints T e -> tokenStore w !! T = None ->
  tokenStore (step cfg e w) !! T = None.
Proof.
  intros Hmint Habsent. destruct e as [o r | now]; simpl.
  - destruct r as [e | e c | n e t | e | h q]; simpl.
    + destruct (send_otp_frame o e w) as [-> _]. exact Habsent.
    + destruct (verify_otp_frame o e c w) as [_ [-> | [m ->]]];
        [exact Habsent|].
      rewrite lookup_insert_ne; [exact Habsent | exact Hmint].
    + destruct (register_frame o n e t w) as [[-> | ->] _];
        [exact Habsent|].
      apply lookup_delete_None. right. exact Habsent.
    + destruct (exists_user_frame o e w) as [-> _]. exact Habsent.
    + destruct (me_frame o h q w) as [-> _]. exact Habsent.
  - apply map_lookup_filter_None. left.
    exact Habsent.
Qed.

Lemma run_events_keeps_absent (T : string) (es : list Event) :
  forall w : World,
    Forall (fun e => ~ mints T e) es -> tokenStore w !! T = None ->
    tokenStore (run_events cfg es w) !! T = None.
Proof.
  induction es as [|e es IH]; intros w Hall Habsent; [exact Habsent|].
  inversion Hall as [|? ? He Hes]; subst. simpl.
  apply IH; [exact Hes|]. apply step_keeps_absent; assumption.
Qed.

End Frames.

(** ** Single use of a token *)

Section SingleUse.

Variable cfg : Config.

Lemma register_success_deletes (o : Oracle)
    (name_f email_f token_f : option string) (w : World) :
  let r := run (register o name_f email_f token_f) w in
  status r.1 = 200 ->
  is_Some (tokenStore w !! Js.str token_f) /\
  tokenStore r.2 = delete (Js.str token_f) (tokenStore w).
Proof.
  intros r Hok.
  destruct (register_cases o name_f email_f token_f w)
    as [Hr|[Hr|(_ & _ & _ & [m [Hm _]] & Hr)]]; fold r in Hr;
    try (rewrite Hr in Hok; discriminate Hok).
  rewrite Hr in Hok |- *. unfold after_token_check in *.
  destruct (readUsers_disk o (usersFile w)) as [users d].
  destruct (find_user (Js.str email_f) users); [discriminate Hok|].
  destruct (write_throws o); [discriminate Hok|].
  split; [eauto | reflexivity].
Qed.

Lemma register_absent_rejected (o : Oracle)
    (name_f email_f token_f : option string) (w : World) :
  tokenStore w !! Js.str token_f = None ->
  let r := run (register o name_f email_f token_f) w in
  status r.1 = 400 /\ r.2 = w /\
  (Js.truthy name_f = true -> Js.truthy email_f = true ->
   Js.truthy token_f = true -> r = (invalid_token, w)).
Proof.
  intros Habsent r. subst r.
  destruct (register_cases o name_f email_f token_f w)
    as [Hr|[Hr|(_ & _ & _ & [m [Hm _]] & _)]]; cbv zeta in *;
    [| |congruence].
  - rewrite Hr. split_and!; try reflexivity.
    intros Hn He Ht. rewrite <- Hr.
    apply (register_unknown_token o _ _ _ w Hn He Ht Habsent).
  - rewrite Hr. split_and!; reflexivity.
Qed.

Lemma successes_absent (T : string) (es : list Event) :
  forall w : World,
    Forall (fun e => ~ mints T e) es -> tokenStore w !! T = None ->
    successes cfg T es w = 0%nat.
Proof.
  induction es as [|e es IH]; intros w Hall Habsent; [reflexivity|].
  inversion Hall as [|? ? He Hes]; subst. simpl.
  rewrite (IH _ Hes (step_keeps_absent cfg T e w He Habsent)).
  destruct e as [o [e | e c | n e t | e | h q] | now]; simpl;
    try reflexivity.
  destruct (decide (Js.str t = T)) as [<-|Hne].
  - destruct (register_absent_rejected o n e t w Habsent) as (H400 & _).
    rewrite (bool_decide_eq_false_2 (status _ = 200)) by (rewrite H400; lia).
    rewrite andb_false_r. reflexivity.
  - rewrite (bool_decide_eq_false_2 _ Hne). reflexivity.
Qed.

Lemma successes_at_most_once (T : string) (es : list Event) :
  forall w : World,
    Forall (fun e => ~ mints T e) es -> (successes cfg T es w <= 1)%nat.
Proof.
  induction es as [|e es IH]; intros w Hall; simpl; [lia|].
  inversion Hall as [|? ? He Hes]; subst.
  destruct (registers_with T e w) eqn:Hreg; [|apply IH; exact Hes].
  destruct e as [o [e | e c | n e t | e | h q] | now]; simpl in Hreg;
    try discriminate Hreg.
  apply andb_prop in Hreg as [Ht Hok].
  apply bool_decide_eq_true_1 in Ht, Hok. subst T.
  destruct (register_success_deletes o n e t w Hok) as [_ Hdel].
  rewrite successes_absent; [lia | exact Hes|].
  simpl. rewrite Hdel. apply lookup_delete_eq.
Qed.

End SingleUse.

(** C2. A token authorizes at most one successful [/register].  When a
    [/register] presenting [T] succeeds, [T] is deleted from the Token
    Store; from then on, as long as no [/verify-otp] draws the very same
    token again, every [/register] presenting [T] is rejected with status
    400 and changes nothing, and the error is "Invalid or expired token"
    whenever the request has its name and e-mail.  In any run of the
    server in which [T] is not drawn again, at most one registration with
    [T] succeeds. *)
Theorem token_single_use (cfg : Config) (T : string) :
  (forall (o : Oracle) (name_f email_f : option string) (w : World),
     let r := run (register o name_f email_f (Some T)) w in
     status r.1 = 200 ->
     tokenStore r.2 !! T = None /\
     forall es : list Event,
       Forall (fun e => ~ mints T e) es ->
       forall (o' : Oracle) (name_f' email_f' : option string),
         let w' := run_events cfg es r.2 in
         let r' := run (register o' name_f' email_f' (Some T)) w' in
         tokenStore w' !! T = None /\
         status r'.1 = 400 /\ r'.2 = w' /\
         (Js.truthy name_f' = true -> Js.truthy email_f' = true ->
          r' = (invalid_token, w'))) /\
  (forall (es : list Event) (w : World),
     Forall (fun e => ~ mints T e) es -> (successes cfg T es w <= 1)%nat).
Proof.
  split.
  - intros o name_f email_f w r Hok.
    destruct (register_success_deletes o name_f email_f (Some T) w Hok)
      as [[m Hm] Hdel]. fold r in Hdel. simpl in Hm, Hdel.
    assert (Hgone : tokenStore r.2 !! T = None)
      by (rewrite Hdel; apply lookup_delete_eq).
    split; [exact Hgone|].
    intros es Hes o' name_f' email_f' w' r'.
    pose proof (run_events_keeps_absent cfg T es r.2 Hes Hgone) as Habsent.
    fold w' in Habsent. split; [exact Habsent|].
    destruct (register_absent_rejected o' name_f' email_f' (Some T) w' Habsent)
      as (H400 & Hsame & Hinvalid).
    split; [exact H400|]. split; [exact Hsame|].
    intros Hn He. apply Hinvalid; try assumption.
    destruct T; [|reflexivity].
    (* the empty token never passes the field check *)
    exfalso. clear -Hok. subst r. revert Hok. unfold_handler.
    rewrite orb_true_r. discriminate.
  - intros es w. apply successes_at_most_once.
Qed.

(** ** Unique e-mail addresses *)

Section UniqueEmails.

Variable cfg : Config.

Lemma find_user_Some_iff (email_ : string) (users : list User) :
  is_Some (find_user email_ users) <->
  exists u, In u users /\
            Js.toLowerCase (email u) = Js.toLowerCase email_.
Proof.
  unfold find_user. split.
  - intros [u Hu]. apply find_some in Hu as [Hin Heq].
    exists u. split; [exact Hin | apply String.eqb_eq; exact Heq].
  - intros (u & Hin & Heq).
    destruct (find _ users) as [u'|] eqn:Hfind; [eauto|].
    apply (find_none _ _ Hfind u) in Hin.
    apply String.eqb_neq in Hin. contradiction.
Qed.

Lemma unique_emails_snoc (users : list User) (u : User) :
  unique_emails users -> find_user (email u) users = None ->
  unique_emails (users ++ [u]).
Proof.
  unfold unique_emails. intros Huniq Hfind.
  rewrite map_app. apply NoDup_app. split; [exact Huniq|].
  split; [|apply NoDup_singleton].
  intros x Hx Hxu. apply list_elem_of_In in Hx.
  apply list_elem_of_singleton in Hxu. subst x.
  apply in_map_iff in Hx as (v & Heq & Hin).
  assert (Hsome : is_Some (find_user (email u) users))
    by (apply find_user_Some_iff; eauto).
  rewrite Hfind in Hsome. destruct Hsome as [? ?]. discriminate.
Qed.

Lemma step_unique_emails (e : Event) (w : World) :
  unique_emails (directory w) -> unique_emails (directory (step cfg e w)).
Proof.
  intros Huniq. destruct e as [o r | now]; [|exact Huniq]. simpl.
  destruct r as [e | e c | n e t | e | h q]; simpl.
  - destruct (send_otp_frame cfg o e w) as [_ Hfile].
    unfold directory. rewrite Hfile. exact Huniq.
  - destruct (verify_otp_frame cfg o e c w) as [Hfile _].
    unfold directory. rewrite Hfile. exact Huniq.
  - destruct (register_frame o n e t w)
      as [_ [-> | [-> | (users & u & -> & Hemail & Hfind & Husers)]]];
      [exact Huniq | constructor |].
    apply unique_emails_snoc; [|rewrite Hemail; exact Hfind].
    destruct Husers as [-> | ->]; [exact Huniq | constructor].
  - destruct (exists_user_frame o e w) as [_ ->]. exact Huniq.
  - destruct (me_frame o h q w) as [_ ->]. exact Huniq.
Qed.

Lemma run_events_unique_emails (es : list Event) :
  forall w : World,
    unique_emails (directory w) ->
    unique_emails (directory (run_events cfg es w)).
Proof.
  induction es as [|e es IH]; intros w Huniq; [exact Huniq|].
  simpl. apply IH, step_unique_emails, Huniq.
Qed.

End UniqueEmails.

(** ** Claims about duplicate users *)

(** C7, as the code has it.  When the users file is read without an
    error and holds a user whose e-mail equals the request's up to case,
    every [/register] request is rejected with status 400 and changes
    nothing in the world, and the error is "User already exists" whenever
    the three fields are given and the token is stored for exactly the
    supplied e-mail.  Whatever the events and their I/O failures, a
    directory in which no two users share an e-mail up to case stays so. *)
Theorem register_rejects_duplicate (cfg : Config) :
  (forall (o : Oracle) (name_f email_f token_f : option string) (w : World)
          (users : list User),
     usersFile w = Document users -> read_throws o = false ->
     (exists u, In u users /\
                Js.toLowerCase (email u) = Js.toLowerCase (Js.str email_f)) ->
     let r := run (register o name_f email_f token_f) w in
     status r.1 = 400 /\ r.2 = w /\
     (forall m : TokenEntry,
        Js.truthy name_f = true -> Js.truthy email_f = true ->
        Js.truthy token_f = true ->
        tokenStore w !! Js.str token_f = Some m ->
        tok_email m = Js.str email_f ->
        r.1 = user_exists)) /\
  (forall (es : list Event) (w : World),
     unique_emails (directory w) ->
     unique_emails (directory (run_events cfg es w))).
Proof.
  split.
  - intros o name_f email_f token_f w users Hfile Hread Hdup r.
    assert (Hafter :
              after_token_check o (Js.str name_f) (Js.str email_f)
                (Js.str token_f) w = (user_exists, w)).
    { unfold after_token_check.
      rewrite Hfile, (readUsers_ok o users Hread).
      apply find_user_Some_iff in Hdup as [u Hu]. rewrite Hu.
      f_equal. apply World_eq; simpl; try reflexivity.
      symmetry. exact Hfile. }
    assert (Herror : forall m : TokenEntry,
              Js.truthy name_f = true -> Js.truthy email_f = true ->
              Js.truthy token_f = true ->
              tokenStore w !! Js.str token_f = Some m ->
              tok_email m = Js.str email_f -> r.1 = user_exists).
    { intros m Hn He Ht Hm Heq. subst r.
      rewrite (register_valid_token o _ _ _ w Hn He Ht m Hm Heq), Hafter.
      reflexivity. }
    split; [|split; [|exact Herror]];
      destruct (register_cases o name_f email_f token_f w)
        as [Hr|[Hr|(_ & _ & _ & _ & Hr)]]; fold r in Hr; rewrite Hr;
        try rewrite Hafter; reflexivity.
  - apply run_events_unique_emails.
Qed.

(** * Further properties of the server *)

(** ** The random values *)

(** X1. [generateOTP(len)] returns a string of exactly [len] characters,
    each a decimal digit, whatever [Math.random] returns; leading zeros are
    kept, as the digits are appended to a string. *)
Theorem generateOTP_digits (o : Oracle) (len : nat) :
  String.length (generateOTP o len) = len /\
  all_digits (generateOTP o len) = true.
Proof.
  unfold generateOTP.
  destruct (generateOTP_loop o (seq 0 len) "") as [Hlen Hdig].
  cbv zeta in Hlen, Hdig. rewrite Hlen, Hdig, length_seq.
  split; reflexivity.
Qed.

(** X2. The hexadecimal encoding of random bytes loses nothing: two
    buffers with the same encoding are the same buffer, so two tokens are
    equal only when all their 20 random bytes are, and two user ids only
    when all their 8 random bytes are. *)
Theorem toString_hex_injective :
  (forall buf1 buf2 : list Byte.byte,
     Js.toString_hex buf1 = Js.toString_hex buf2 -> buf1 = buf2) /\
  (forall o1 o2 : Oracle,
     generateToken o1 = generateToken o2 ->
     forall i : nat, (i < 20)%nat -> random_byte o1 i = random_byte o2 i) /\
  (forall (o1 o2 : Oracle) (n1 e1 n2 e2 : string),
     id (new_user o1 n1 e1) = id (new_user o2 n2 e2) ->
     forall i : nat, (i < 8)%nat -> random_byte o1 i = random_byte o2 i).
Proof.
  assert (Hinj : forall buf1 buf2 : list Byte.byte,
            Js.toString_hex buf1 = Js.toString_hex buf2 -> buf1 = buf2).
  { intros buf1 buf2 Heq. apply (f_equal parse_hex) in Heq.
    rewrite !parse_toString_hex in Heq. congruence. }
  assert (Hbytes : forall (o1 o2 : Oracle) (n : nat),
            randomBytes o1 n = randomBytes o2 n ->
            forall i : nat, (i < n)%nat -> random_byte o1 i = random_byte o2 i).
  { intros o1 o2 n Heq i Hi. unfold randomBytes in Heq.
    apply (proj1 map_ext_in_iff Heq). apply in_seq. lia. }
  split; [exact Hinj|]. split.
  - intros o1 o2 Heq. apply Hbytes, Hinj, Heq.
  - intros o1 o2 n1 e1 n2 e2 Heq. apply Hbytes, Hinj, Heq.
Qed.

(** ** The cleanup interval *)

(** X3. After a run of the cleanup at time [now] the stores hold exactly
    the entries they held before whose [expiresAt] is later than [now], each
    unchanged: an entry with [expiresAt <= now] is removed, also one that
    expires at this very instant.  The users file and the mails sent are not
    touched. *)
Theorem janitor_removes_exactly_expired (now : Z) (w : World) :
  (forall (T : string) (m : TokenEntry),
     tokenStore (janitor now w) !! T = Some m <->
     tokenStore w !! T = Some m /\ now < tok_expiresAt m) /\
  (forall (email_ : string) (e : OtpEntry),
     otpStore (janitor now w) !! email_ = Some e <->
     otpStore w !! email_ = Some e /\ now < otp_expiresAt e) /\
  usersFile (janitor now w) = usersFile w /\
  outbox (janitor now w) = outbox w.
Proof.
  split; [|split; [|split; reflexivity]].
  - intros T m. rewrite janitor_token.
    destruct (tokenStore w !! T) as [m'|]; [|split; [discriminate | tauto]].
    case_bool_decide; split.
    + discriminate.
    + intros [Heq Hlt]. injection Heq as ->. lia.
    + intros Heq. split; [exact Heq|]. injection Heq as ->. lia.
    + tauto.
  - intros email_ e. rewrite janitor_otp.
    destruct (otpStore w !! email_) as [e'|]; [|split; [discriminate | tauto]].
    case_bool_decide; split.
    + discriminate.
    + intros [Heq Hlt]. injection Heq as ->. lia.
    + intros Heq. split; [exact Heq|]. injection Heq as ->. lia.
    + tauto.
Qed.

(** X4. Two runs of the cleanup amount to one run at the later of the two
    times, in whichever order they come; in particular a second run at the
    same time changes nothing. *)
Theorem janitor_sweeps_compose (t1 t2 : Z) (w : World) :
  janitor t2 (janitor t1 w) = janitor (Z.max t1 t2) w /\
  janitor t2 (janitor t1 w) = janitor t1 (janitor t2 w) /\
  janitor t1 (janitor t1 w) = janitor t1 w.
Proof.
  assert (Hmax : forall a b : Z,
            janitor b (janitor a w) = janitor (Z.max a b) w).
  { intros a b. apply World_eq; try reflexivity; apply map_eq; intros k.
    - rewrite !janitor_otp. destruct (otpStore w !! k) as [e|]; [|reflexivity].
      repeat case_bool_decide; try reflexivity; lia.
    - rewrite !janitor_token.
      destruct (tokenStore w !! k) as [m|]; [|reflexivity].
      repeat case_bool_decide; try reflexivity; lia. }
  split; [apply Hmax|]. split.
  - rewrite !Hmax, Z.max_comm. reflexivity.
  - rewrite Hmax, Z.max_id. reflexivity.
Qed.

(** ** Each handler, outcome by outcome *)

Section Outcomes.

Variable cfg : Config.

(** The world after a successful [/verify-otp]. *)
Lemma verify_otp_cases (o : Oracle) (email_f otp_f : option string)
    (w : World) :
  let r := run (verify_otp cfg o email_f otp_f) w in
  let email_ := Js.str email_f in
  r = (resp 400 (Error "Email and OTP required"), w) /\
    (Js.truthy email_f = false \/ Js.truthy otp_f = false) \/
  Js.truthy email_f = true /\ Js.truthy otp_f = true /\
  (r = (no_challenge, w) /\ otpStore w !! email_ = None \/
   exists data,
     otpStore w !! email_ = Some data /\
     (r = (otp_expired, set_otpStore (delete email_) w) /\
        now1 o > otp_expiresAt data \/
      ~ now1 o > otp_expiresAt data /\
      (r = (too_many_attempts, set_otpStore (delete email_) w) /\
         attempts data + 1 > 6 \/
       attempts data + 1 <= 6 /\
       (r = (invalid_otp, set_otpStore <[email_ := bump 1 data]> w) /\
          Js.str otp_f <> otp data \/
        r = (resp 200 (WithToken "Verified" (generateToken o)),
             set_otpStore (delete email_)
               (set_tokenStore
                  <[generateToken o :=
                      {| tok_email := email_;
                         tok_expiresAt :=
                           now2 o + TOKEN_EXPIRES_SECONDS cfg * 1000 |}]> w)) /\
          Js.str otp_f = otp data)))).
Proof.
  intros r email_. subst r.
  destruct (Js.truthy email_f) eqn:He;
    [destruct (Js.truthy otp_f) eqn:Hc|];
    try (left; split; [unfold_handler; rewrite ?He, ?Hc; reflexivity | auto]).
  right. split; [reflexivity|]. split; [reflexivity|].
  destruct (otpStore w !! email_) as [data|] eqn:Hd.
  - right. exists data. split; [reflexivity|].
    destruct (decide (now1 o > otp_expiresAt data)) as [Hexp|Hlive].
    + left. split; [|exact Hexp].
      apply (verify_expired cfg o email_f otp_f w He Hc data Hd Hexp).
    + right. split; [exact Hlive|].
      destruct (decide (attempts data + 1 > 6)) as [Hmany|Hfew].
      * left. split; [|exact Hmany].
        apply (verify_too_many cfg o email_f otp_f w He Hc data Hd Hlive Hmany).
      * right. split; [lia|].
        destruct (String.eqb_spec (Js.str otp_f) (otp data)) as [Heq|Hne].
        -- right. split; [|exact Heq].
           apply (verify_match cfg o email_f otp_f w He Hc data Hd Hlive);
             [lia | exact Heq].
        -- left. split; [|exact Hne].
           apply (verify_wrong cfg o email_f otp_f w He Hc data Hd Hlive);
             [lia | exact Hne].
  - left. split; [|reflexivity].
    apply (verify_no_challenge cfg o email_f otp_f w He Hc Hd).
Qed.

(** [/send-otp] for a given e-mail: rate-limited or issued. *)
Lemma send_otp_decides (o : Oracle) (email_ : string) (w : World) :
  email_ <> "" ->
  resend_too_soon cfg o email_ w /\
    run (send_otp cfg o (Some email_)) w = (try_again_later, w) \/
  ~ resend_too_soon cfg o email_ w /\
    run (send_otp cfg o (Some email_)) w =
      (if mail_throws o then resp 500 (Error "Failed to send email")
       else resp 200 (Message "OTP sent"), issued cfg o email_ w).
Proof.
  intros Hemail. pose proof (truthy_of_nonempty _ Hemail) as Ht.
  destruct (otpStore w !! email_) as [e|] eqn:He.
  - destruct (decide (otp_expiresAt e > now1 o)) as [Hlive|Hdead].
    + destruct (decide (otp_expiresAt e - now2 o >
                        (OTP_EXPIRES_SECONDS cfg - 250) * 1000))
        as [Hleft|Hshort].
      * left. split; [exists e; auto|].
        apply (send_rate_limited cfg o (Some email_) w Ht e He Hlive Hleft).
      * right. split; [intros (e' & He' & _ & Hleft); congruence|].
        unfold_handler. destruct email_; [congruence|]. simpl.
        rewrite He. rewrite bool_decide_eq_true_2 by exact Hlive.
        rewrite bool_decide_eq_false_2
          by (intros H; apply ceil_div_gt in H; contradiction).
        simpl. destruct (mail_throws o); reflexivity.
    + right. split; [intros (e' & He' & Hlive & _); congruence|].
      unfold_handler. destruct email_; [congruence|]. simpl.
      rewrite He. rewrite bool_decide_eq_false_2 by exact Hdead.
      simpl. destruct (mail_throws o); reflexivity.
  - right. split; [intros (e' & He' & _); congruence|].
    unfold_handler. destruct email_; [congruence|]. simpl.
    rewrite He. simpl. destruct (mail_throws o); reflexivity.
Qed.

Lemma missing_fields_verify (o : Oracle) (email_f otp_f : option string)
    (w : World) :
  Js.truthy email_f = false \/ Js.truthy otp_f = false ->
  run (verify_otp cfg o email_f otp_f) w =
    (resp 400 (Error "Email and OTP required"), w).
Proof.
  intros [H|H]; unfold_handler; rewrite H, ?orb_true_r; reflexivity.
Qed.

End Outcomes.

(** ** Validation of the request fields *)

(** X5. A request that lacks a required field, or gives it as the empty
    string, is answered before anything is looked up or changed: 400 for
    the four POST routes and 401 for [/me], with the world left as it was
    (no attempt is counted, no file is created, no mail is sent). *)
Theorem missing_field_changes_nothing (cfg : Config) (o : Oracle) (w : World) :
  (forall e : option string,
     Js.truthy e = false ->
     run (send_otp cfg o e) w = (resp 400 (Error "Email required"), w)) /\
  (forall e c : option string,
     Js.truthy e = false \/ Js.truthy c = false ->
     run (verify_otp cfg o e c) w =
       (resp 400 (Error "Email and OTP required"), w)) /\
  (forall n e t : option string,
     Js.truthy n = false \/ Js.truthy e = false \/ Js.truthy t = false ->
     run (register o n e t) w =
       (resp 400 (Error "Name, email and token required"), w)) /\
  (forall e : option string,
     Js.truthy e = false ->
     run (exists_user o e) w = (resp 400 (Error "Email required"), w)) /\
  (forall h q : option string,
     Js.truthy h = false -> Js.truthy q = false ->
     run (me o h q) w = (resp 401 (Error "Token required"), w)).
Proof.
  split; [|split; [|split; [|split]]].
  - intros e He. unfold_handler. rewrite He. reflexivity.
  - intros e c [H|H]; unfold_handler; rewrite H, ?orb_true_r; reflexivity.
  - intros n e t [H|[H|H]]; unfold_handler;
      rewrite H, ?orb_true_r; reflexivity.
  - intros e He. unfold_handler. rewrite He. reflexivity.
  - intros h q Hh Hq. apply me_no_token.
    unfold Js.or_else. rewrite Hh. exact Hq.
Qed.

(** ** Issuing a challenge *)

(** X6. [/send-otp] for a given e-mail answers "Try again later" exactly
    when a challenge is stored that has not expired and has more than
    [OTP_EXPIRES_SECONDS - 250] seconds left.  Otherwise it stores a new
    challenge in place of any old one (six new digits, expiry
    [now + OTP_EXPIRES_SECONDS * 1000], attempts back at 0) and calls
    [sendMail] once with that same code; the answer is 200, or 500 when the
    mail fails, and in both cases the new challenge stays stored. *)
Theorem send_otp_issues_or_limits
    (cfg : Config) (o : Oracle) (email_ : string) (w : World) :
  email_ <> "" ->
  let r := run (send_otp cfg o (Some email_)) w in
  let challenge :=
    {| otp := generateOTP o 6;
       otp_expiresAt := now3 o + OTP_EXPIRES_SECONDS cfg * 1000;
       attempts := 0 |} in
  (r.1 = try_again_later <-> resend_too_soon cfg o email_ w) /\
  (~ resend_too_soon cfg o email_ w ->
     r.1 = (if mail_throws o then resp 500 (Error "Failed to send email")
            else resp 200 (Message "OTP sent")) /\
     otpStore r.2 = <[email_ := challenge]> (otpStore w) /\
     otpStore r.2 !! email_ = Some challenge /\
     six_digits (otp challenge) /\
     outbox r.2 =
       {| mail_to := email_; mail_subject := "Your verification code";
          mail_code := otp challenge;
          mail_minutes := Js.ceil_div (OTP_EXPIRES_SECONDS cfg) 60 |}
       :: outbox w /\
     tokenStore r.2 = tokenStore w /\ usersFile r.2 = usersFile w).
Proof.
  intros Hemail r challenge. subst r.
  destruct (send_otp_decides cfg o email_ w Hemail) as [[Hsoon ->]|[Hok ->]].
  - split; [split; [intros _; exact Hsoon | reflexivity]|].
    intros Hnot. contradiction.
  - split.
    + split; [|intros Hsoon; contradiction].
      destruct (mail_throws o); discriminate.
    + intros _. cbn [fst snd]. split; [reflexivity|].
      split; [reflexivity|]. split; [apply lookup_insert_eq|].
      split; [apply generateOTP_six_digits|].
      split; [reflexivity|]. split; reflexivity.
Qed.

(** X7. The code of a newly issued challenge verifies: after a [/send-otp]
    that was not rate-limited, also one whose mail failed, a [/verify-otp]
    with the issued code made no later than the expiry instant is answered
    200 with a new token stored for that e-mail, and the challenge is
    consumed. *)
Theorem issued_code_verifies
    (cfg : Config) (o1 o2 : Oracle) (email_ : string) (w : World) :
  email_ <> "" ->
  ~ resend_too_soon cfg o1 email_ w ->
  now1 o2 <= now3 o1 + OTP_EXPIRES_SECONDS cfg * 1000 ->
  let w1 := (run (send_otp cfg o1 (Some email_)) w).2 in
  let r := run (verify_otp cfg o2 (Some email_) (Some (generateOTP o1 6))) w1 in
  r.1 = resp 200 (WithToken "Verified" (generateToken o2)) /\
  tokenStore r.2 !! generateToken o2 =
    Some {| tok_email := email_;
            tok_expiresAt := now2 o2 + TOKEN_EXPIRES_SECONDS cfg * 1000 |} /\
  otpStore r.2 !! email_ = None.
Proof.
  intros Hemail Hok Hlive w1 r. subst r w1.
  destruct (send_otp_decides cfg o1 email_ w Hemail) as [[Hsoon _]|[_ ->]];
    [contradiction|].
  cbn [snd].
  assert (Hcode : generateOTP o1 6 <> "").
  { intros Heq. pose proof (generateOTP_six_digits o1) as [Hlen _].
    rewrite Heq in Hlen. discriminate Hlen. }
  rewrite (verify_match cfg o2 (Some email_) (Some (generateOTP o1 6))
             (issued cfg o1 email_ w)
             (truthy_of_nonempty _ Hemail) (truthy_of_nonempty _ Hcode)
             {| otp := generateOTP o1 6;
                otp_expiresAt := now3 o1 + OTP_EXPIRES_SECONDS cfg * 1000;
                attempts := 0 |});
    [| apply lookup_insert_eq | simpl; lia | simpl; lia | reflexivity].
  cbn [fst snd Js.str]. split; [reflexivity|].
  split; [apply lookup_insert_eq | apply lookup_delete_eq].
Qed.

(** ** What the handlers leave of the OTP store and of the outbox *)

Section OtpFrames.

Variable cfg : Config.

Lemma register_quiet (o : Oracle) (name_f email_f token_f : option string)
    (w : World) :
  let r := run (register o name_f email_f token_f) w in
  otpStore r.2 = otpStore w /\ outbox r.2 = outbox w.
Proof.
  destruct (register_cases o name_f email_f token_f w)
    as [Hr|[Hr|(_ & _ & _ & _ & Hr)]]; cbv zeta in *; rewrite Hr;
    try (split; reflexivity).
  unfold after_token_check.
  destruct (readUsers_disk o (usersFile w)) as [users d].
  destruct (find_user (Js.str email_f) users); [split; reflexivity|].
  destruct (write_throws o); split; reflexivity.
Qed.

Lemma exists_user_quiet (o : Oracle) (email_f : option string) (w : World) :
  let r := run (exists_user o email_f) w in
  otpStore r.2 = otpStore w /\ outbox r.2 = outbox w.
Proof.
  destruct (Js.truthy email_f) eqn:He.
  - rewrite (exists_user_run o w email_f He). split; reflexivity.
  - unfold_handler. rewrite He. split; reflexivity.
Qed.

Lemma me_quiet (o : Oracle) (header_f query_f : option string) (w : World) :
  let r := run (me o header_f query_f) w in
  otpStore r.2 = otpStore w /\ outbox r.2 = outbox w.
Proof.
  destruct (Js.truthy (Js.or_else header_f query_f)) eqn:Ht.
  - destruct (tokenStore w !! Js.str (Js.or_else header_f query_f))
      as [m|] eqn:Hm.
    + rewrite (me_known_token o w header_f query_f Ht m Hm).
      split; reflexivity.
    + rewrite (me_unknown_token o w header_f query_f Ht Hm).
      split; reflexivity.
  - rewrite (me_no_token o w header_f query_f Ht). split; reflexivity.
Qed.

(** [/verify-otp] never creates a challenge and never sends mail. *)
Lemma verify_otp_quiet (o : Oracle) (email_f otp_f : option string)
    (w : World) :
  let r := run (verify_otp cfg o email_f otp_f) w in
  (forall k : string, otpStore w !! k = None -> otpStore r.2 !! k = None) /\
  outbox r.2 = outbox w.
Proof.
  destruct (verify_otp_cases cfg o email_f otp_f w)
    as [[Hr _]|(_ & _ & [[Hr _]|(data & Hd & Hcases)])];
    cbv zeta in *; try (rewrite Hr; split; [auto | reflexivity]).
  assert (Hne : forall k, otpStore w !! k = None -> Js.str email_f <> k)
    by (intros k Hk Heq; rewrite Heq in Hd; congruence).
  destruct Hcases as [[Hr _]|[_ [[Hr _]|[_ [[Hr _]|[Hr _]]]]]];
    rewrite Hr; (split; [|reflexivity]); intros k Hk; cbn [snd];
    simpl; first
      [ rewrite lookup_delete_ne by (apply Hne; exact Hk); exact Hk
      | rewrite lookup_insert_ne by (apply Hne; exact Hk); exact Hk ].
Qed.

(** An event other than a [/send-otp] for [email_] does not create a
    challenge for [email_]. *)
Lemma step_keeps_unchallenged (email_ : string) (e : Event) (w : World) :
  ~ issues_for email_ e -> otpStore w !! email_ = None ->
  otpStore (step cfg e w) !! email_ = None.
Proof.
  intros Hissue Habsent. destruct e as [o r | now]; simpl.
  - destruct r as [f | f c | n f t | f | h q]; simpl.
    + destruct f as [s|]; [|exact Habsent].
      destruct (decide (s = "")) as [->|Hne]; [exact Habsent|].
      simpl in Hissue.
      destruct (send_otp_decides cfg o s w Hne) as [[_ ->]|[_ ->]];
        [exact Habsent|].
      simpl. rewrite lookup_insert_ne by exact Hissue. exact Habsent.
    + apply (verify_otp_quiet o f c w). exact Habsent.
    + destruct (register_quiet o n f t w) as [-> _]. exact Habsent.
    + destruct (exists_user_quiet o f w) as [-> _]. exact Habsent.
    + destruct (me_quiet o h q w) as [-> _]. exact Habsent.
  - change (otpStore (janitor now w) !! email_ = None).
    rewrite janitor_otp, Habsent. reflexivity.
Qed.

Lemma run_events_keeps_unchallenged (email_ : string) (es : list Event) :
  forall w : World,
    Forall (fun e => ~ issues_for email_ e) es ->
    otpStore w !! email_ = None ->
    otpStore (run_events cfg es w) !! email_ = None.
Proof.
  induction es as [|e es IH]; intros w Hall Habsent; [exact Habsent|].
  inversion Hall as [|? ? He Hes]; subst. simpl.
  apply IH; [exact Hes|]. apply step_keeps_unchallenged; assumption.
Qed.

End OtpFrames.

(** ** One-time use of a code *)

(** X8. A token is minted only for the right code: when [/verify-otp]
    answers 200, a challenge was stored for the e-mail, it had not expired,
    fewer than 6 attempts had been counted and the submitted code was the
    stored one; with any other answer the Token Store is left as it was. *)
Theorem verify_otp_mints_only_on_match
    (cfg : Config) (o : Oracle) (email_f otp_f : option string) (w : World) :
  let r := run (verify_otp cfg o email_f otp_f) w in
  (status r.1 = 200 ->
     exists data,
       Js.str email_f <> "" /\ Js.str otp_f <> "" /\
       otpStore w !! Js.str email_f = Some data /\
       now1 o <= otp_expiresAt data /\ attempts data < 6 /\
       Js.str otp_f = otp data) /\
  (status r.1 <> 200 -> tokenStore r.2 = tokenStore w).
Proof.
  intros r.
  destruct (verify_otp_cases cfg o email_f otp_f w)
    as [[Hr _]|(He & Hc & [[Hr _]|(data & Hd & Hcases)])];
    fold r in Hr || idtac; cbv zeta in *;
    try (rewrite Hr; split; [discriminate | reflexivity]).
  destruct Hcases as [[Hr _]|[Hlive [[Hr _]|[Hfew [[Hr _]|[Hr Heq]]]]]];
    fold r in Hr; rewrite Hr;
    try (split; [discriminate | reflexivity]).
  split; [|intros H; elim H; reflexivity].
  intros _. exists data.
  apply truthy_Some in He as [_ He]. apply truthy_Some in Hc as [_ Hc].
  split_and!; try assumption; lia.
Qed.

(** X9. A code is good for one verification and a lockout ends with the
    challenge: once [/verify-otp] has answered 200, "OTP expired" or "Too
    many attempts", the challenge of that e-mail is gone; until a new
    [/send-otp] for the e-mail, whatever else the server does, every
    [/verify-otp] for it is answered "No OTP requested or already used" and
    changes nothing, and the next [/send-otp] for it is not rate-limited. *)
Theorem otp_single_use
    (cfg : Config) (o : Oracle) (email_f otp_f : option string) (w : World) :
  let r := run (verify_otp cfg o email_f otp_f) w in
  let email_ := Js.str email_f in
  status r.1 = 200 \/ r.1 = otp_expired \/ r.1 = too_many_attempts ->
  otpStore r.2 !! email_ = None /\
  forall es : list Event,
    Forall (fun e => ~ issues_for email_ e) es ->
    let w' := run_events cfg es r.2 in
    (forall (o' : Oracle) (otp_f' : option string),
       Js.truthy otp_f' = true ->
       run (verify_otp cfg o' email_f otp_f') w' = (no_challenge, w')) /\
    (forall o' : Oracle, ~ resend_too_soon cfg o' email_ w').
Proof.
  intros r email_ Hdone.
  assert (Hgone : otpStore r.2 !! email_ = None /\ Js.truthy email_f = true).
  { destruct (verify_otp_cases cfg o email_f otp_f w)
      as [[Hr _]|(He & Hc & [[Hr _]|(data & Hd & Hcases)])];
      fold r in Hr || idtac; cbv zeta in *.
    - rewrite Hr in Hdone. destruct Hdone as [H|[H|H]]; discriminate H.
    - rewrite Hr in Hdone. destruct Hdone as [H|[H|H]]; discriminate H.
    - split; [|exact He].
      destruct Hcases as [[Hr _]|[_ [[Hr _]|[_ [[Hr _]|[Hr _]]]]]];
        fold r in Hr; rewrite Hr in Hdone |- *;
        try apply lookup_delete_eq.
      destruct Hdone as [H|[H|H]]; discriminate H. }
  destruct Hgone as [Hgone He]. split; [exact Hgone|].
  intros es Hes w'.
  pose proof (run_events_keeps_unchallenged cfg email_ es r.2 Hes Hgone)
    as Habsent.
  fold w' in Habsent. split.
  - intros o' otp_f' Hc.
    apply (verify_no_challenge cfg o' email_f otp_f' w' He Hc Habsent).
  - intros o' (e & Hsome & _). congruence.
Qed.

(** ** What every reachable world satisfies *)

Section WellFormed.

Variable cfg : Config.

Lemma janitor_wf (now : Z) (w : World) :
  wf_stores cfg w -> wf_stores cfg (janitor now w).
Proof.
  intros (Hotp & Htok & Hmail). split; [|split; [|exact Hmail]].
  - intros k e Hk. rewrite janitor_otp in Hk.
    destruct (otpStore w !! k) as [e'|] eqn:Hk'; [|discriminate].
    case_bool_decide; [discriminate|]. injection Hk as <-.
    apply (Hotp k e' Hk').
  - intros k m Hk. rewrite janitor_token in Hk.
    destruct (tokenStore w !! k) as [m'|] eqn:Hk'; [|discriminate].
    case_bool_decide; [discriminate|]. injection Hk as <-.
    apply (Htok k m' Hk').
Qed.

Lemma send_otp_wf (o : Oracle) (f : option string) (w : World) :
  wf_stores cfg w -> wf_stores cfg (run (send_otp cfg o f) w).2.
Proof.
  intros Hwf. destruct f as [s|]; [|exact Hwf].
  destruct (decide (s = "")) as [->|Hne]; [exact Hwf|].
  destruct (send_otp_decides cfg o s w Hne) as [[_ ->]|[_ ->]];
    [exact Hwf|].
  destruct Hwf as (Hotp & Htok & Hmail). cbn [snd]. unfold issued.
  split; [|split; [exact Htok|]].
  - apply map_Forall_insert_2; [|exact Hotp].
    split; [exact Hne|]. split; [apply generateOTP_six_digits | simpl; lia].
  - constructor; [|exact Hmail].
    split; [exact Hne|]. split; [apply generateOTP_six_digits|].
    split; reflexivity.
Qed.

Lemma verify_otp_wf (o : Oracle) (email_f otp_f : option string) (w : World) :
  wf_stores cfg w -> wf_stores cfg (run (verify_otp cfg o email_f otp_f) w).2.
Proof.
  intros Hwf.
  destruct (verify_otp_cases cfg o email_f otp_f w)
    as [[Hr _]|(He & Hc & [[Hr _]|(data & Hd & Hcases)])];
    cbv zeta in *; try (rewrite Hr; exact Hwf).
  destruct Hwf as (Hotp & Htok & Hmail).
  pose proof (Hotp _ _ Hd) as (Hkey & Hcode & Hatt).
  destruct Hcases as [[Hr _]|[_ [[Hr _]|[Hfew [[Hr _]|[Hr _]]]]]];
    rewrite Hr; cbn [snd];
    (split; [|split; [|exact Hmail]]); simpl;
    try exact Htok; try (apply map_Forall_delete; exact Hotp).
  - apply map_Forall_insert_2; [|exact Hotp].
    split; [exact Hkey|]. split; [exact Hcode | simpl; lia].
  - apply map_Forall_insert_2; [|exact Htok].
    split; [|exact Hkey].
    split; [apply generateToken_length | apply generateToken_hex].
Qed.

Lemma step_wf (e : Event) (w : World) :
  wf_stores cfg w -> wf_stores cfg (step cfg e w).
Proof.
  intros Hwf. destruct e as [o r | now]; [|apply janitor_wf; exact Hwf].
  destruct r as [f | f c | n f t | f | h q]; cbn [step handle].
  - apply send_otp_wf; exact Hwf.
  - apply verify_otp_wf; exact Hwf.
  - destruct Hwf as (Hotp & Htok & Hmail).
    destruct (register_quiet o n f t w) as [Ho Hm].
    destruct (register_frame o n f t w) as [Ht _].
    unfold wf_stores. rewrite Ho, Hm. split; [exact Hotp|].
    split; [|exact Hmail].
    destruct Ht as [-> | ->]; [exact Htok | apply map_Forall_delete, Htok].
  - destruct Hwf as (Hotp & Htok & Hmail).
    destruct (exists_user_quiet o f w) as [Ho Hm].
    destruct (exists_user_frame o f w) as [Ht _].
    unfold wf_stores. rewrite Ho, Hm, Ht. auto.
  - destruct Hwf as (Hotp & Htok & Hmail).
    destruct (me_quiet o h q w) as [Ho Hm].
    destruct (me_frame o h q w) as [Ht _].
    unfold wf_stores. rewrite Ho, Hm, Ht. auto.
Qed.

End WellFormed.

(** X10. In every world the server reaches from its start, whatever the
    requests, clock readings, random draws and I/O failures: every stored
    challenge is for a non-empty e-mail, holds six decimal digits and an
    attempts count between 0 and 6; every stored token is 40 lower-case
    hexadecimal characters and is bound to a non-empty e-mail; every mail
    sent went to a non-empty address with a six-digit code. *)
Theorem reachable_stores_well_formed
    (cfg : Config) (es : list Event) (d : Disk) :
  wf_stores cfg (run_events cfg es (boot d)).
Proof.
  assert (Hrun : forall (l : list Event) (w : World),
            wf_stores cfg w -> wf_stores cfg (run_events cfg l w)).
  { induction l as [|e l IH]; intros w Hwf; [exact Hwf|].
    simpl. apply IH, step_wf, Hwf. }
  apply Hrun. split; [|split].
  - apply map_Forall_empty.
  - apply map_Forall_empty.
  - constructor.
Qed.

(** ** Looking users up *)

Section CaseFolding.

Lemma find_user_fold_case (e1 e2 : string) (users : list User) :
  Js.toLowerCase e1 = Js.toLowerCase e2 ->
  find_user e1 users = find_user e2 users.
Proof. intros Heq. unfold find_user. rewrite Heq. reflexivity. Qed.

Lemma find_user_app_new (e : string) (users : list User) (u : User) :
  Js.toLowerCase (email u) = Js.toLowerCase e ->
  is_Some (find_user e (users ++ [u])).
Proof.
  intros Heq. apply find_user_Some_iff. exists u.
  split; [apply in_or_app; right; left; reflexivity | exact Heq].
Qed.

End CaseFolding.

(** X11. [/exists] for a given e-mail, when the users file is read, answers
    [exists: true] exactly when some stored user has that e-mail up to
    case as [toLowerCase] folds it, and changes nothing; two e-mails with
    the same folding get the same answer.  When the file does not exist the
    answer is [exists: false] and an empty users file is created; if that
    write fails the file is what the failed write has left. *)
Theorem exists_user_answers (o : Oracle) (email_ : string) (w : World) :
  email_ <> "" ->
  let r := run (exists_user o (Some email_)) w in
  (forall users : list User,
     usersFile w = Document users -> read_throws o = false ->
     exists b : bool,
       r = (resp 200 (ExistsIs b), w) /\
       (b = true <->
        exists u, In u users /\
                  Js.toLowerCase (email u) = Js.toLowerCase email_)) /\
  (forall email' : string,
     email' <> "" -> Js.toLowerCase email' = Js.toLowerCase email_ ->
     run (exists_user o (Some email')) w = r) /\
  (usersFile w = NoFile ->
     r.1 = resp 200 (ExistsIs false) /\
     usersFile r.2 =
       (if create_throws o then left_by (create_leaves o) [] NoFile
        else Document []) /\
     otpStore r.2 = otpStore w /\ tokenStore r.2 = tokenStore w /\
     outbox r.2 = outbox w).
Proof.
  intros Hemail r. subst r.
  rewrite (exists_user_run o w _ (truthy_of_nonempty _ Hemail)).
  cbn [Js.str]. split; [|split].
  - intros users Hfile Hread. rewrite Hfile, (readUsers_ok o users Hread).
    cbn [fst snd]. eexists. split.
    + f_equal. apply World_eq; simpl; try reflexivity. symmetry. exact Hfile.
    + rewrite bool_decide_eq_true. apply find_user_Some_iff.
  - intros email' Hemail' Hfold.
    rewrite (exists_user_run o w _ (truthy_of_nonempty _ Hemail')).
    cbn [Js.str]. rewrite (find_user_fold_case _ _ _ Hfold). reflexivity.
  - intros Hfile. rewrite Hfile. unfold readUsers_disk. simpl.
    destruct (create_throws o); simpl; split_and!; reflexivity.
Qed.

(** ** The users file *)

Section Directory.

Variable cfg : Config.

Lemma readUsers_reads_directory (o : Oracle) (d : Disk) :
  read_throws o = false -> (readUsers_disk o d).1 = stored d.
Proof.
  intros Hread. unfold readUsers_disk. destruct d as [|users|]; simpl.
  - destruct (create_throws o); reflexivity.
  - rewrite Hread. reflexivity.
  - rewrite Hread. reflexivity.
Qed.

(** A [/register] run leaves the stored users as they were, or writes the
    users it has read followed by the new one, or fails in a write that
    tears the file. *)
Lemma register_directory_step (o : Oracle)
    (name_f email_f token_f : option string) (w : World) :
  let r := run (register o name_f email_f token_f) w in
  directory r.2 = directory w \/
  Js.str name_f <> "" /\ Js.str email_f <> "" /\
  directory r.2 =
    ((readUsers_disk o (usersFile w)).1 ++
     [new_user o (Js.str name_f) (Js.str email_f)])%list \/
  write_throws o = true /\ write_leaves o = Torn /\ directory r.2 = [].
Proof.
  destruct (register_cases o name_f email_f token_f w)
    as [Hr|[Hr|(Hn & He & _ & _ & Hr)]]; cbv zeta in *; rewrite Hr;
    try (left; reflexivity).
  unfold after_token_check.
  pose proof (readUsers_disk_cases o (usersFile w)) as [_ Hdir].
  destruct (readUsers_disk o (usersFile w)) as [users d]. simpl in Hdir.
  destruct (find_user (Js.str email_f) users); [left; exact Hdir|].
  apply truthy_Some in Hn as [_ Hn]. apply truthy_Some in He as [_ He].
  destruct (write_throws o); cbn [fst snd].
  - destruct (write_leaves o); cbn [left_by].
    + left. exact Hdir.
    + right; right. split_and!; reflexivity.
    + right; left. split; [exact Hn|]. split; [exact He | reflexivity].
  - right; left. split; [exact Hn|]. split; [exact He | reflexivity].
Qed.

Lemma step_directory (e : Event) (w : World) :
  directory (step cfg e w) = directory w \/
  (exists o name_f email_f token_f,
     e = Serve o (ReqRegister name_f email_f token_f) /\
     Js.str name_f <> "" /\ Js.str email_f <> "" /\
     directory (step cfg e w) =
       ((readUsers_disk o (usersFile w)).1 ++
        [new_user o (Js.str name_f) (Js.str email_f)])%list) \/
  register_write_tears e /\ directory (step cfg e w) = [].
Proof.
  destruct e as [o r | now]; [|left; reflexivity].
  destruct r as [f | f c | n f t | f | h q]; cbn [step handle].
  - left. destruct (send_otp_frame cfg o f w) as [_ Hfile].
    unfold directory. rewrite Hfile. reflexivity.
  - left. destruct (verify_otp_frame cfg o f c w) as [Hfile _].
    unfold directory. rewrite Hfile. reflexivity.
  - destruct (register_directory_step o n f t w) as [H|[H|(H1 & H2 & H3)]].
    + left. exact H.
    + right; left. exists o, n, f, t. split; [reflexivity | exact H].
    + right; right. split; [split; assumption | exact H3].
  - left. apply (exists_user_frame o f w).
  - left. apply (me_frame o h q w).
Qed.

(** The users stored stay stored, in their order, through events none of
    which is a [/register] with a failing read or a tearing write. *)
Lemma run_events_directory_grows (es : list Event) :
  forall w : World,
    Forall (fun e => ~ register_read_fails e /\ ~ register_write_tears e) es ->
    exists added : list User,
      directory (run_events cfg es w) = (directory w ++ added)%list.
Proof.
  induction es as [|e es IH]; intros w Hall.
  - exists []. simpl. rewrite app_nil_r. reflexivity.
  - inversion Hall as [|? ? [He Htear] Hes]; subst. simpl.
    destruct (IH (step cfg e w) Hes) as [added Hadded].
    destruct (step_directory e w)
      as [Hsame | [(o & n & f & t & -> & _ & _ & Hnew) | [Ht _]]].
    + exists added. rewrite Hadded, Hsame. reflexivity.
    + simpl in He.
      rewrite (readUsers_reads_directory o (usersFile w)) in Hnew
        by (destruct (read_throws o); [elim He; reflexivity | reflexivity]).
      exists (new_user o (Js.str n) (Js.str f) :: added).
      rewrite Hadded, Hnew, <- app_assoc. reflexivity.
    + contradiction.
Qed.

End Directory.

(** X14. The directory only grows at its end: as long as no [/register]
    meets a failing read of the users file or a write that fails after
    truncating it, the users stored before a run of the server are still
    stored after it, unchanged and in the same order, before any user added
    since. *)
Theorem directory_append_only (cfg : Config) (es : list Event) (w : World) :
  Forall (fun e => ~ register_read_fails e /\ ~ register_write_tears e) es ->
  exists added : list User,
    directory (run_events cfg es w) = (directory w ++ added)%list.
Proof. apply run_events_directory_grows. Qed.

(** X12. A registered user stays found: after a [/register] answered 200,
    through any later events in which no [/register] meets a failing read
    of the users file or a write that fails after truncating it, every
    [/exists] whose e-mail has the same [toLowerCase] folding as the
    registered one, and whose read of the users file does not fail, answers
    [exists: true]; and as long as no [/verify-otp] draws the token used
    again, [/me] with that token answers 401. *)
Theorem registered_user_is_found
    (cfg : Config) (o : Oracle) (name_f email_f token_f : option string)
    (w : World) :
  let r := run (register o name_f email_f token_f) w in
  status r.1 = 200 ->
  forall es : list Event,
    Forall (fun e => ~ register_read_fails e /\ ~ register_write_tears e) es ->
    let w' := run_events cfg es r.2 in
    (forall (o' : Oracle) (email' : string),
       email' <> "" -> read_throws o' = false ->
       Js.toLowerCase email' = Js.toLowerCase (Js.str email_f) ->
       (run (exists_user o' (Some email')) w').1 = resp 200 (ExistsIs true)) /\
    (Forall (fun e => ~ mints (Js.str token_f) e) es ->
     forall (o' : Oracle) (query_f : option string),
       run (me o' token_f query_f) w' =
         (resp 401 (Error "Invalid or expired token"), w')).
Proof.
  intros r Hok es Hes w'.
  assert (Hnew : Js.truthy token_f = true /\
                 tokenStore r.2 !! Js.str token_f = None /\
                 exists users,
                   directory r.2 =
                     (users ++ [new_user o (Js.str name_f) (Js.str email_f)])%list).
  { destruct (register_cases o name_f email_f token_f w)
      as [Hr|[Hr|(_ & _ & Ht & _ & Hr)]]; fold r in Hr;
      try (rewrite Hr in Hok; discriminate Hok).
    rewrite Hr in Hok |- *. unfold after_token_check in *.
    destruct (readUsers_disk o (usersFile w)) as [users d].
    destruct (find_user (Js.str email_f) users); [discriminate Hok|].
    destruct (write_throws o); [discriminate Hok|].
    split; [exact Ht|]. split; [apply lookup_delete_eq|].
    exists users. reflexivity. }
  destruct Hnew as (Ht & Hgone & users & Hdir).
  destruct (run_events_directory_grows cfg es r.2 Hes) as [added Hadded].
  fold w' in Hadded. rewrite Hdir in Hadded. split.
  - intros o' email' Hemail' Hread Hfold.
    rewrite (exists_user_run o' w' _ (truthy_of_nonempty _ Hemail')).
    cbn [fst Js.str].
    rewrite (readUsers_reads_directory o' (usersFile w') Hread).
    fold (directory w'). rewrite Hadded.
    rewrite bool_decide_eq_true_2; [reflexivity|].
    apply find_user_Some_iff.
    exists (new_user o (Js.str name_f) (Js.str email_f)).
    split; [|symmetry; exact Hfold].
    apply in_or_app. left. apply in_or_app. right. left. reflexivity.
  - intros Hmint o' query_f.
    assert (Htok : Js.truthy (Js.or_else token_f query_f) = true)
      by (unfold Js.or_else; rewrite Ht; exact Ht).
    apply (me_unknown_token o' w' token_f query_f Htok).
    unfold Js.or_else. rewrite Ht.
    apply (run_events_keeps_absent cfg (Js.str token_f) es r.2 Hmint Hgone).
Qed.

(** X15. Every user the server writes has an id of 16 lower-case
    hexadecimal characters and a non-empty name and e-mail: a directory
    whose users are of that form stays so through every run. *)
Theorem directory_users_well_formed
    (cfg : Config) (es : list Event) (w : World) :
  Forall wf_user (directory w) ->
  Forall wf_user (directory (run_events cfg es w)).
Proof.
  revert w. induction es as [|e es IH]; intros w Hwf; [exact Hwf|].
  simpl. apply IH.
  destruct (step_directory cfg e w)
    as [-> | [(o & n & f & t & -> & Hn & Hf & ->) | [_ ->]]];
    [exact Hwf | | constructor].
  apply Forall_app. split.
  - destruct (readUsers_disk_cases o (usersFile w)) as [[Hr|Hr] _];
      rewrite Hr; [exact Hwf | constructor].
  - constructor; [|constructor].
    split; [|split; [exact Hn | exact Hf]].
    split; [|apply toString_hex_all_hex].
    change (String.length (Js.toString_hex (randomBytes o 8)) = 16%nat).
    rewrite toString_hex_length. unfold randomBytes.
    rewrite length_map, length_seq. reflexivity.
Qed.

(** ** Mails *)

Section Mails.

Variable cfg : Config.

Lemma step_outbox (e : Event) (w : World) :
  length (outbox (step cfg e w)) =
  ((if mails cfg e w then 1 else 0) + length (outbox w))%nat.
Proof.
  destruct e as [o r | now]; [|reflexivity].
  destruct r as [f | f c | n f t | f | h q]; cbn [step handle mails].
  - destruct f as [s|]; [|reflexivity].
    destruct (decide (s = "")) as [->|Hne]; [reflexivity|].
    destruct (send_otp_decides cfg o s w Hne) as [[_ ->]|[_ ->]];
      [reflexivity|].
    destruct (mail_throws o); reflexivity.
  - destruct (verify_otp_quiet cfg o f c w) as [_ ->]. reflexivity.
  - destruct (register_quiet o n f t w) as [_ ->]. reflexivity.
  - destruct (exists_user_quiet o f w) as [_ ->]. reflexivity.
  - destruct (me_quiet o h q w) as [_ ->]. reflexivity.
Qed.

End Mails.

(** X16. [sendMail] is called once by every [/send-otp] that is answered
    200 or 500 and by nothing else: after any run of the server, the number
    of mails sent has grown by the number of such requests.  No mail goes
    out for a rate-limited or invalid request, a verification, a
    registration, a lookup or a cleanup. *)
Theorem mails_sent_counts_issues (cfg : Config) (es : list Event) (w : World) :
  length (outbox (run_events cfg es w)) =
  (mails_sent cfg es w + length (outbox w))%nat.
Proof.
  revert w. induction es as [|e es IH]; intros w; [reflexivity|].
  cbn [mails_sent]. change (run_events cfg (e :: es) w)
    with (run_events cfg es (step cfg e w)).
  rewrite IH, step_outbox. lia.
Qed.

(** ** The expiry instant *)

(** X17. At the very instant [expiresAt] of a challenge the three tests of
    expiry disagree: [/verify-otp] still accepts the right code, while
    [/send-otp] already treats the challenge as expired and issues a new
    one, and a cleanup at that instant removes it.  One millisecond later
    [/verify-otp] answers "OTP expired". *)
Theorem expiry_instant
    (cfg : Config) (email_ : string) (w : World) (data : OtpEntry) :
  email_ <> "" -> otp data <> "" ->
  otpStore w !! email_ = Some data -> attempts data < 6 ->
  (forall o : Oracle,
     now1 o = otp_expiresAt data ->
     (run (verify_otp cfg o (Some email_) (Some (otp data))) w).1 =
       resp 200 (WithToken "Verified" (generateToken o))) /\
  (forall o : Oracle,
     now1 o = otp_expiresAt data + 1 ->
     (run (verify_otp cfg o (Some email_) (Some (otp data))) w).1 =
       otp_expired) /\
  (forall o : Oracle,
     now1 o = otp_expiresAt data ->
     status (run (send_otp cfg o (Some email_)) w).1 <> 429 /\
     otpStore (run (send_otp cfg o (Some email_)) w).2 !! email_ =
       Some {| otp := generateOTP o 6;
               otp_expiresAt := now3 o + OTP_EXPIRES_SECONDS cfg * 1000;
               attempts := 0 |}) /\
  otpStore (janitor (otp_expiresAt data) w) !! email_ = None.
Proof.
  intros Hemail Hcode Hd Hfew.
  pose proof (truthy_of_nonempty _ Hemail) as He.
  pose proof (truthy_of_nonempty _ Hcode) as Hc.
  split; [|split; [|split]].
  - intros o Hnow.
    rewrite (verify_match cfg o (Some email_) (Some (otp data)) w He Hc data
               Hd); [reflexivity | lia | lia | reflexivity].
  - intros o Hnow.
    rewrite (verify_expired cfg o (Some email_) (Some (otp data)) w He Hc data
               Hd); [reflexivity | lia].
  - intros o Hnow.
    destruct (send_otp_decides cfg o email_ w Hemail)
      as [[(e & He' & Hlive & _) _]|[_ ->]].
    + rewrite Hd in He'. injection He' as <-. lia.
    + split; [destruct (mail_throws o); discriminate|].
      apply lookup_insert_eq.
  - rewrite janitor_otp, Hd.
    rewrite bool_decide_eq_true_2 by lia. reflexivity.
Qed.

(** ** The cleanup and the verification *)

Section SweepCommutes.

Variable s : Z.
Variable w : World.

Lemma janitor_delete_otp (k : string) :
  janitor s (set_otpStore (delete k) w) = set_otpStore (delete k) (janitor s w).
Proof.
  apply World_eq; try reflexivity. apply map_eq. intros j.
  rewrite janitor_otp. cbn [otpStore set_otpStore].
  destruct (decide (k = j)) as [->|Hne].
  - rewrite !lookup_delete_eq. reflexivity.
  - rewrite !lookup_delete_ne by exact Hne. rewrite janitor_otp. reflexivity.
Qed.

Lemma janitor_insert_otp (k : string) (e : OtpEntry) :
  s < otp_expiresAt e ->
  janitor s (set_otpStore <[k := e]> w) = set_otpStore <[k := e]> (janitor s w).
Proof.
  intros Hlive. apply World_eq; try reflexivity. apply map_eq. intros j.
  rewrite janitor_otp. cbn [otpStore set_otpStore].
  destruct (decide (k = j)) as [->|Hne].
  - rewrite !lookup_insert_eq.
    rewrite bool_decide_eq_false_2 by lia. reflexivity.
  - rewrite !lookup_insert_ne by exact Hne. rewrite janitor_otp. reflexivity.
Qed.

Lemma janitor_insert_token (T : string) (m : TokenEntry) :
  s < tok_expiresAt m ->
  janitor s (set_tokenStore <[T := m]> w) =
  set_tokenStore <[T := m]> (janitor s w).
Proof.
  intros Hlive. apply World_eq; try reflexivity. apply map_eq. intros j.
  rewrite janitor_token. cbn [tokenStore set_tokenStore].
  destruct (decide (T = j)) as [->|Hne].
  - rewrite !lookup_insert_eq.
    rewrite bool_decide_eq_false_2 by lia. reflexivity.
  - rewrite !lookup_insert_ne by exact Hne. rewrite janitor_token.
    reflexivity.
Qed.

Lemma janitor_delete_swept (k : string) (e : OtpEntry) :
  otpStore w !! k = Some e -> otp_expiresAt e <= s ->
  janitor s (set_otpStore (delete k) w) = janitor s w.
Proof.
  intros Hk Hdead. rewrite janitor_delete_otp.
  apply World_eq; try reflexivity. apply map_eq. intros j.
  cbn [otpStore set_otpStore].
  destruct (decide (k = j)) as [->|Hne].
  - rewrite lookup_delete_eq, janitor_otp, Hk.
    rewrite bool_decide_eq_true_2 by exact Hdead. reflexivity.
  - rewrite lookup_delete_ne by exact Hne. reflexivity.
Qed.

End SweepCommutes.

(** X18. The cleanup does not disturb verification: for a [/verify-otp]
    whose clock readings are later than the cleanup, running the cleanup
    before the request or after it gives the same world, and the same
    answer, except that an expired challenge the cleanup has already
    removed is reported as "No OTP requested or already used" instead of
    "OTP expired". *)
Theorem sweep_commutes_with_verify
    (cfg : Config) (s : Z) (o : Oracle) (email_f otp_f : option string)
    (w : World) :
  s < now1 o -> s < now2 o + TOKEN_EXPIRES_SECONDS cfg * 1000 ->
  let r := run (verify_otp cfg o email_f otp_f) w in
  let r' := run (verify_otp cfg o email_f otp_f) (janitor s w) in
  r'.2 = janitor s r.2 /\
  (r'.1 = r.1 \/ r.1 = otp_expired /\ r'.1 = no_challenge).
Proof.
  intros Hclock Htoken r r'. subst r r'.
  destruct (verify_otp_cases cfg o email_f otp_f w)
    as [[Hr Hmiss]|(He & Hc & [[Hr Hd]|(data & Hd & Hcases)])];
    cbv zeta in *.
  - rewrite Hr.
    rewrite (missing_fields_verify cfg o email_f otp_f (janitor s w) Hmiss).
    split; [reflexivity | left; reflexivity].
  - rewrite Hr.
    rewrite (verify_no_challenge cfg o email_f otp_f (janitor s w) He Hc)
      by (rewrite janitor_otp, Hd; reflexivity).
    split; [reflexivity | left; reflexivity].
  - destruct (decide (otp_expiresAt data <= s)) as [Hdead|Hkept].
    + rewrite (verify_no_challenge cfg o email_f otp_f (janitor s w) He Hc)
        by (rewrite janitor_otp, Hd, bool_decide_eq_true_2 by exact Hdead;
            reflexivity).
      rewrite (verify_expired cfg o email_f otp_f w He Hc data Hd) by lia.
      cbn [fst snd]. split; [|right; split; reflexivity].
      symmetry. apply (janitor_delete_swept s w _ data Hd Hdead).
    + assert (Hd' : otpStore (janitor s w) !! Js.str email_f = Some data)
        by (rewrite janitor_otp, Hd, bool_decide_eq_false_2 by exact Hkept;
            reflexivity).
      destruct Hcases as [[Hr Hexp]|[Hlive [[Hr Hmany]|[Hfew [[Hr Hne]|[Hr Heq]]]]]];
        rewrite Hr; cbn [fst snd].
      * rewrite (verify_expired cfg o email_f otp_f _ He Hc data Hd' Hexp).
        split; [|left; reflexivity]. cbn [snd].
        symmetry. apply janitor_delete_otp.
      * rewrite (verify_too_many cfg o email_f otp_f _ He Hc data Hd' Hlive
                   Hmany).
        split; [|left; reflexivity]. cbn [snd].
        symmetry. apply janitor_delete_otp.
      * rewrite (verify_wrong cfg o email_f otp_f _ He Hc data Hd' Hlive Hfew
                   Hne).
        split; [|left; reflexivity]. cbn [snd].
        symmetry. apply janitor_insert_otp. simpl. lia.
      * rewrite (verify_match cfg o email_f otp_f _ He Hc data Hd' Hlive Hfew
                   Heq).
        split; [|left; reflexivity]. cbn [snd].
        rewrite janitor_delete_otp, janitor_insert_token by (simpl; lia).
        reflexivity.
Qed.

(** ** One e-mail does not affect another *)

(** X19. Requests for one e-mail leave the challenges of every other
    e-mail as they are: a [/send-otp] or [/verify-otp] for one e-mail
    neither creates, changes, counts an attempt on, nor deletes the
    challenge of another, and [/register] changes no token but the one it
    is given. *)
Theorem requests_are_isolated
    (cfg : Config) (o : Oracle) (w : World) (other : string) :
  (forall email_f : option string,
     Js.str email_f <> other ->
     otpStore (run (send_otp cfg o email_f) w).2 !! other =
       otpStore w !! other) /\
  (forall email_f otp_f : option string,
     Js.str email_f <> other ->
     otpStore (run (verify_otp cfg o email_f otp_f) w).2 !! other =
       otpStore w !! other) /\
  (forall name_f email_f token_f : option string,
     Js.str token_f <> other ->
     tokenStore (run (register o name_f email_f token_f) w).2 !! other =
       tokenStore w !! other).
Proof.
  split; [|split].
  - intros email_f Hne. destruct email_f as [s|]; [|reflexivity].
    destruct (decide (s = "")) as [->|Hs]; [reflexivity|].
    destruct (send_otp_decides cfg o s w Hs) as [[_ ->]|[_ ->]];
      [reflexivity|].
    simpl. apply lookup_insert_ne. exact Hne.
  - intros email_f otp_f Hne.
    destruct (verify_otp_cases cfg o email_f otp_f w)
      as [[Hr _]|(_ & _ & [[Hr _]|(data & _ & Hcases)])];
      cbv zeta in *; try (rewrite Hr; reflexivity).
    destruct Hcases as [[Hr _]|[_ [[Hr _]|[_ [[Hr _]|[Hr _]]]]]];
      rewrite Hr; simpl;
      first [apply lookup_delete_ne; exact Hne
            | apply lookup_insert_ne; exact Hne].
  - intros name_f email_f token_f Hne.
    destruct (register_frame o name_f email_f token_f w) as [[-> | ->] _];
      [reflexivity|].
    apply lookup_delete_ne. exact Hne.
Qed.

(** ** From the request for a code to the stored user *)

(** X20. The whole path composes: when [/send-otp] for an e-mail is not
    rate-limited, the issued code is verified before it expires, and
    [/register] is then called with the returned token for the same e-mail
    while the users it reads hold no user with that e-mail up to case and
    the write succeeds, the answer is 200 with the new user, the directory
    is the users read followed by the new user, and both the challenge and
    the token are consumed. *)
Theorem otp_to_registration
    (cfg : Config) (o1 o2 o3 : Oracle) (name_ email_ : string) (w : World) :
  name_ <> "" -> email_ <> "" ->
  ~ resend_too_soon cfg o1 email_ w ->
  now1 o2 <= now3 o1 + OTP_EXPIRES_SECONDS cfg * 1000 ->
  find_user email_ (readUsers_disk o3 (usersFile w)).1 = None ->
  write_throws o3 = false ->
  let w1 := (run (send_otp cfg o1 (Some email_)) w).2 in
  let w2 := (run (verify_otp cfg o2 (Some email_)
                    (Some (generateOTP o1 6))) w1).2 in
  let r := run (register o3 (Some name_) (Some email_)
                  (Some (generateToken o2))) w2 in
  r.1 = resp 200 (WithUser "Registered" (new_user o3 name_ email_)) /\
  directory r.2 =
    ((readUsers_disk o3 (usersFile w)).1 ++ [new_user o3 name_ email_])%list /\
  tokenStore r.2 !! generateToken o2 = None /\
  otpStore r.2 !! email_ = None.
Proof.
  intros Hname Hemail Hok Hlive Hfind Hwrite w1 w2 r. subst r w2 w1.
  destruct (send_otp_decides cfg o1 email_ w Hemail) as [[Hsoon _]|[_ ->]];
    [contradiction|].
  cbn [snd].
  assert (Hcode : generateOTP o1 6 <> "").
  { intros Heq. pose proof (generateOTP_six_digits o1) as [Hlen _].
    rewrite Heq in Hlen. discriminate Hlen. }
  assert (Htoken : generateToken o2 <> "").
  { intros Heq. pose proof (generateToken_length o2) as Hlen.
    rewrite Heq in Hlen. discriminate Hlen. }
  rewrite (verify_match cfg o2 (Some email_) (Some (generateOTP o1 6))
             (issued cfg o1 email_ w)
             (truthy_of_nonempty _ Hemail) (truthy_of_nonempty _ Hcode)
             {| otp := generateOTP o1 6;
                otp_expiresAt := now3 o1 + OTP_EXPIRES_SECONDS cfg * 1000;
                attempts := 0 |});
    [| apply lookup_insert_eq | simpl; lia | simpl; lia | reflexivity].
  cbn [snd Js.str].
  rewrite (register_valid_token o3 (Some name_) (Some email_)
             (Some (generateToken o2)) _
             (truthy_of_nonempty _ Hname) (truthy_of_nonempty _ Hemail)
             (truthy_of_nonempty _ Htoken)
             {| tok_email := email_;
                tok_expiresAt := now2 o2 + TOKEN_EXPIRES_SECONDS cfg * 1000 |});
    [| apply lookup_insert_eq | reflexivity].
  unfold after_token_check.
  cbn [Js.str usersFile set_otpStore set_tokenStore issued push_outbox].
  destruct (readUsers_disk o3 (usersFile w)) as [users d].
  cbn [fst] in Hfind. rewrite Hfind, Hwrite. cbn [fst snd].
  split; [reflexivity|]. split; [reflexivity|].
  split; simpl; [apply lookup_delete_eq|].
  rewrite lookup_delete_eq. reflexivity.
Qed.

(** ** The number of guesses *)

(** X21. A challenge allows six counted verifications: after up to five
    wrong codes the right code is still accepted, and after six wrong codes
    the right code is answered "Too many attempts" like any other, the
    challenge being deleted. *)
Theorem six_guesses
    (cfg : Config) (email_ : string) (w : World) (data : OtpEntry)
    (wrong : list (Oracle * string)) (o : Oracle) :
  email_ <> "" -> otp data <> "" ->
  otpStore w !! email_ = Some data -> attempts data = 0 ->
  Forall (wrong_for data) wrong ->
  ~ now1 o > otp_expiresAt data ->
  let w' := (serve_all cfg (map (verify_call email_) wrong) w).2 in
  let r := run (verify_otp cfg o (Some email_) (Some (otp data))) w' in
  ((length wrong <= 5)%nat ->
     r.1 = resp 200 (WithToken "Verified" (generateToken o)) /\
     otpStore r.2 !! email_ = None) /\
  (length wrong = 6%nat ->
     r.1 = too_many_attempts /\ otpStore r.2 !! email_ = None /\
     tokenStore r.2 = tokenStore w).
Proof.
  intros Hemail Hcode Hd Hzero Hall Hlive w' r.
  pose proof (truthy_of_nonempty _ Hemail) as He.
  pose proof (truthy_of_nonempty _ Hcode) as Hc.
  assert (Hw' : (length wrong <= 6)%nat ->
            w' = set_otpStore
                   <[email_ := bump (Z.of_nat (length wrong)) data]> w).
  { intros Hlen. subst w'.
    rewrite (wrong_attempts cfg email_ Hemail wrong w data Hd Hall) by lia.
    reflexivity. }
  split.
  - intros Hlen. subst r. rewrite Hw' by lia.
    rewrite (verify_match cfg o (Some email_) (Some (otp data)) _ He Hc
               (bump (Z.of_nat (length wrong)) data));
      [| apply lookup_insert_eq | exact Hlive | simpl; lia | reflexivity].
    split; [reflexivity | apply lookup_delete_eq].
  - intros Hlen. subst r. rewrite Hw' by lia.
    rewrite (verify_too_many cfg o (Some email_) (Some (otp data)) _ He Hc
               (bump (Z.of_nat (length wrong)) data));
      [| apply lookup_insert_eq | exact Hlive | simpl; lia].
    split; [reflexivity|]. split; [apply lookup_delete_eq | reflexivity].
Qed.

End Server.

(** * The sample runs

    The statements above, applied to the sample data.  The e-mail
    addresses are ASCII strings, so the case folding is that of the letters
    A to Z. *)

#[export] Existing Instance ascii_folding.

Lemma verify_otp_expired_challenge_witness :
  let r := run (verify_otp default_config (sample_oracle 301001) (Some alice)
                  (Some alice_code)) world_issued in
  r.1 = otp_expired /\
  otpStore r.2 = delete alice (otpStore world_issued) /\
  otpStore r.2 !! alice = None /\
  tokenStore r.2 = tokenStore world_issued /\
  usersFile r.2 = usersFile world_issued /\ outbox r.2 = outbox world_issued.
Proof.
  apply (verify_otp_expired_challenge default_config (sample_oracle 301001)
           (Some alice) (Some alice_code) world_issued sample_challenge).
  - reflexivity.
  - reflexivity.
  - vm_compute. reflexivity.
  - simpl. lia.
Defined.


Lemma verify_otp_attempt_limit_witness :
  let wrong := repeat (sample_oracle 2000, "999999") 7 in
  let r := serve_all default_config
             (map (verify_call alice) wrong ++
              [(sample_oracle 3000, ReqVerifyOtp (Some alice) (Some alice_code))])
             world_issued in
  r.1 = (repeat invalid_otp 6 ++ [too_many_attempts; no_challenge])%list /\
  otpStore r.2 !! alice = None.
Proof.
  destruct (verify_otp_attempt_limit default_config alice) as [_ H].
  - discriminate.
  - apply (H world_issued sample_challenge).
    + vm_compute. reflexivity.
    + reflexivity.
    + reflexivity.
    + repeat constructor; simpl; try lia; discriminate.
    + discriminate.
Defined.

Lemma send_otp_rate_limit_witness :
  run (send_otp default_config (sample_oracle 1000) (Some alice)) world_issued =
    (try_again_later, world_issued) /\
  run (send_otp default_config (sample_oracle 50999) (Some alice))
      (run (send_otp default_config (sample_oracle 1000) (Some alice))
           (boot NoFile)).2 =
    (try_again_later,
     (run (send_otp default_config (sample_oracle 1000) (Some alice))
          (boot NoFile)).2).
Proof.
  destruct send_otp_rate_limit as [H1 H2]. split.
  - apply (H1 default_config (sample_oracle 1000) alice world_issued
              sample_challenge).
    + discriminate.
    + vm_compute. reflexivity.
    + simpl. lia.
    + simpl. lia.
  - apply (H2 (sample_oracle 1000) (sample_oracle 50999) alice (boot NoFile)).
    + discriminate.
    + reflexivity.
    + simpl. lia.
    + simpl. lia.
Defined.

Lemma register_token_gate_witness :
  let r := run (register (sample_oracle 3000) (Some "Alice") (Some alice)
                  (Some alice_token)) world_verified in
  r.1 <> invalid_token /\
  r.1 = resp 200 (WithUser "Registered"
                   (new_user (sample_oracle 3000) "Alice" alice)) /\
  run (register (sample_oracle 3000) (Some "Alice") (Some "A@x.com")
         (Some alice_token)) world_verified = (invalid_token, world_verified).
Proof.
  intros r. split; [|split].
  - destruct (register_token_gate (sample_oracle 3000) (Some "Alice")
                (Some alice) (Some alice_token) world_verified)
      as (H & _); [reflexivity | reflexivity | reflexivity |].
    destruct (H {| tok_email := alice; tok_expiresAt := 902000 |})
      as (Hvalid & _); [vm_compute; reflexivity | reflexivity |].
    exact Hvalid.
  - destruct (register_token_gate (sample_oracle 3000) (Some "Alice")
                (Some alice) (Some alice_token) world_verified)
      as (H & _); [reflexivity | reflexivity | reflexivity |].
    destruct (H {| tok_email := alice; tok_expiresAt := 902000 |})
      as (_ & _ & _ & Hnew); [vm_compute; reflexivity | reflexivity |].
    destruct Hnew as (Hr & _); [vm_compute; reflexivity | reflexivity |].
    exact Hr.
  - destruct (register_token_gate (sample_oracle 3000) (Some "Alice")
                (Some "A@x.com") (Some alice_token) world_verified)
      as (_ & _ & H & _); [reflexivity | reflexivity | reflexivity |].
    apply (H {| tok_email := alice; tok_expiresAt := 902000 |});
      [vm_compute; reflexivity | discriminate].
Defined.

(** C1 as stated fails: the token minted at time 2000 expires at 902000,
    the cleanup interval has not yet removed it at 910000, and a
    [/register] made then is served: the user is written and the token
    consumed. *)
Lemma register_accepts_expired_token :
  let o := sample_oracle 910000 in
  let r := run (register o (Some "Alice") (Some alice) (Some alice_token))
               world_verified in
  (exists m, tokenStore world_verified !! alice_token = Some m /\
             tok_email m = alice /\ tok_expiresAt m < now1 o) /\
  r.1 = resp 200 (WithUser "Registered" (new_user o "Alice" alice)) /\
  r.1 <> invalid_token /\
  tokenStore r.2 <> tokenStore world_verified /\
  directory r.2 <> directory world_verified.
Proof.
  split_and!.
  - exists {| tok_email := alice; tok_expiresAt := 902000 |}.
    split_and!; [vm_compute; reflexivity | reflexivity | simpl; lia].
  - vm_compute. reflexivity.
  - vm_compute. discriminate.
  - intros H. apply (f_equal (fun m => m !! alice_token)) in H.
    vm_compute in H. discriminate H.
  - vm_compute. discriminate.
Qed.

Lemma register_persist_failure_keeps_token_witness :
  let o := unwritable_oracle 3000 in
  let r := run (register o (Some "Alice") (Some alice) (Some alice_token))
               world_verified in
  r.1 = save_failed /\ tokenStore r.2 = tokenStore world_verified /\
  (run (register (sample_oracle 4000) (Some "Alice") (Some alice)
          (Some alice_token)) r.2).1 =
    resp 200 (WithUser "Registered" (new_user (sample_oracle 4000) "Alice" alice)).
Proof.
  intros o r.
  destruct register_persist_failure_keeps_token as [H _].
  destruct (H o (Some "Alice") (Some alice) (Some alice_token) world_verified
              {| tok_email := alice; tok_expiresAt := 902000 |})
    as (Hr & _ & Ht & _ & _ & _ & Hretry).
  - reflexivity.
  - reflexivity.
  - reflexivity.
  - vm_compute. reflexivity.
  - reflexivity.
  - vm_compute. reflexivity.
  - reflexivity.
  - split; [exact Hr|]. split; [exact Ht|].
    apply (Hretry (sample_oracle 4000)).
    + vm_compute. reflexivity.
    + reflexivity.
Defined.

(** C8 as stated fails: Alice is stored, Bob's registration passes the
    token and duplicate checks, and the write of the users file throws
    after it has truncated the file; the answer is 500 and the token is
    kept, but the stored directory is not what it was: Alice is lost. *)
Lemma register_failed_write_loses_directory :
  let o := torn_oracle 12000 in
  let r := run (register o (Some "Bob") (Some bob) (Some alice_token))
               world_second in
  (exists m, tokenStore world_second !! alice_token = Some m /\
             tok_email m = bob) /\
  find_user bob (readUsers_disk o (usersFile world_second)).1 = None /\
  write_throws o = true /\
  r.1 = save_failed /\
  tokenStore r.2 = tokenStore world_second /\
  directory world_second = [new_user (sample_oracle 3000) "Alice" alice] /\
  directory r.2 = [] /\
  directory r.2 <> directory world_second.
Proof.
  split; [|split; [|split; [|split; [|split; [|split; [|split]]]]]].
  - exists {| tok_email := bob; tok_expiresAt := 911000 |}.
    split; [vm_compute; reflexivity | reflexivity].
  - vm_compute. reflexivity.
  - reflexivity.
  - vm_compute. reflexivity.
  - vm_compute. reflexivity.
  - vm_compute. reflexivity.
  - vm_compute. reflexivity.
  - vm_compute. discriminate.
Qed.

Lemma readUsers_swallows_read_failure_witness :
  run (exists_user (unreadable_oracle 1002000) (Some alice)) world_login =
    (resp 200 (ExistsIs false), world_login) /\
  usersFile
    (run (register (unreadable_oracle 1002000) (Some "Mallory") (Some alice)
            (Some alice_token)) world_login).2 =
    Document [new_user (unreadable_oracle 1002000) "Mallory" alice].
Proof.
  destruct readUsers_swallows_read_failure as (_ & Hexists & Hregister).
  split.
  - apply (Hexists (unreadable_oracle 1002000) alice world_login
             [new_user (sample_oracle 3000) "Alice" alice]).
    + discriminate.
    + vm_compute. reflexivity.
    + reflexivity.
  - destruct (Hregister (unreadable_oracle 1002000) "Mallory" alice
                alice_token world_login
                [new_user (sample_oracle 3000) "Alice" alice]
                {| tok_email := alice; tok_expiresAt := 1901000 |})
      as (_ & Hfile & _).
    + discriminate.
    + discriminate.
    + discriminate.
    + vm_compute. reflexivity.
    + reflexivity.
    + reflexivity.
    + vm_compute. reflexivity.
    + reflexivity.
    + exact Hfile.
Defined.

Lemma me_lookup_witness :
  (run (me (sample_oracle 1002000) (Some alice_token) None) world_login).1 =
    resp 200 (UserIs (new_user (sample_oracle 3000) "Alice" alice)) /\
  (run (me (sample_oracle 3000) None (Some alice_token)) world_verified).1 =
    resp 404 (Error "User not found") /\
  run (me (sample_oracle 3000) None (Some "")) world_verified =
    (resp 401 (Error "Token required"), world_verified) /\
  run (me (sample_oracle 3000) (Some "0123") None) world_verified =
    (resp 401 (Error "Invalid or expired token"), world_verified).
Proof.
  split; [|split; [|split]].
  - destruct (me_lookup (sample_oracle 1002000) (Some alice_token) None
                world_login) as (_ & _ & H & _).
    destruct (H {| tok_email := alice; tok_expiresAt := 1901000 |})
      as (_ & Hfound & _).
    + reflexivity.
    + vm_compute. reflexivity.
    + destruct (Hfound (new_user (sample_oracle 3000) "Alice" alice))
        as (Hr & _); [vm_compute; reflexivity | exact Hr].
  - destruct (me_lookup (sample_oracle 3000) None (Some alice_token)
                world_verified) as (_ & _ & H & _).
    destruct (H {| tok_email := alice; tok_expiresAt := 902000 |})
      as (Hnone & _).
    + reflexivity.
    + vm_compute. reflexivity.
    + apply Hnone. vm_compute. reflexivity.
  - destruct (me_lookup (sample_oracle 3000) None (Some "") world_verified)
      as (H & _).
    apply H. reflexivity.
  - destruct (me_lookup (sample_oracle 3000) (Some "0123") None
                world_verified) as (_ & H & _).
    apply H; [reflexivity | vm_compute; reflexivity].
Defined.

(** C9 as stated fails: the token minted at time 1001000 expires at
    1901000; presented to [/me] at 1910000, before the cleanup interval has
    removed it, it is not rejected: the profile is returned. *)
Lemma me_accepts_expired_token :
  let o := sample_oracle 1910000 in
  let r := run (me o (Some alice_token) None) world_login in
  (exists m, tokenStore world_login !! alice_token = Some m /\
             tok_expiresAt m < now1 o) /\
  status r.1 <> 401 /\
  r.1 = resp 200 (UserIs (new_user (sample_oracle 3000) "Alice" alice)).
Proof.
  split; [|split].
  - exists {| tok_email := alice; tok_expiresAt := 1901000 |}.
    split; [vm_compute; reflexivity | simpl; lia].
  - vm_compute. discriminate.
  - vm_compute. reflexivity.
Qed.

Lemma token_single_use_witness :
  let r := run (register (sample_oracle 3000) (Some "Alice") (Some alice)
                  (Some alice_token)) world_verified in
  let es := [Sweep 60000;
             Serve (unreadable_oracle 70000) (ReqSendOtp (Some alice));
             Serve (unreadable_oracle 80000)
               (ReqVerifyOtp (Some alice) (Some alice_code))] in
  let w' := run_events default_config es r.2 in
  tokenStore r.2 !! alice_token = None /\
  run (register (sample_oracle 90000) (Some "Alice") (Some alice)
         (Some alice_token)) w' = (invalid_token, w') /\
  (successes default_config alice_token
     (Serve (sample_oracle 3000)
        (ReqRegister (Some "Alice") (Some alice) (Some alice_token)) ::
      es ++
      [Serve (sample_oracle 90000)
         (ReqRegister (Some "Alice") (Some alice) (Some alice_token))])
     world_verified <= 1)%nat.
Proof.
  intros r es w'.
  assert (Hes : Forall (fun e => ~ mints alice_token e) es).
  { repeat constructor; intros H; vm_compute in H;
      solve [destruct H | discriminate H]. }
  destruct (token_single_use default_config alice_token) as [H1 H2].
  destruct (H1 (sample_oracle 3000) (Some "Alice") (Some alice) world_verified)
    as [Hgone Hlater].
  - vm_compute. reflexivity.
  - split; [exact Hgone|]. split.
    + destruct (Hlater es Hes (sample_oracle 90000) (Some "Alice") (Some alice))
        as (_ & _ & _ & Hinvalid).
      apply Hinvalid; reflexivity.
    + apply H2. repeat constructor; intros H; vm_compute in H;
        solve [destruct H | discriminate H].
Defined.

Lemma register_rejects_duplicate_witness :
  run (register (sample_oracle 1002000) (Some "Mallory") (Some alice)
         (Some alice_token)) world_login = (user_exists, world_login) /\
  unique_emails
    (directory
       (run_events default_config
          [Serve (unreadable_oracle 1002000)
             (ReqRegister (Some "Mallory") (Some alice) (Some alice_token))]
          world_login)).
Proof.
  destruct (register_rejects_duplicate default_config) as [Hdup Hinv].
  split.
  - destruct (Hdup (sample_oracle 1002000) (Some "Mallory") (Some alice)
                (Some alice_token) world_login
                [new_user (sample_oracle 3000) "Alice" alice])
      as (_ & Hsame & Herror).
    + vm_compute. reflexivity.
    + reflexivity.
    + exists (new_user (sample_oracle 3000) "Alice" alice).
      split; [left; reflexivity | reflexivity].
    + apply injective_projections; [|exact Hsame].
      apply (Herror {| tok_email := alice; tok_expiresAt := 1901000 |});
        [reflexivity | reflexivity | reflexivity
        | vm_compute; reflexivity | reflexivity].
  - apply Hinv. vm_compute. repeat constructor. intros H. inversion H.
Defined.

(** C7 as stated fails: Alice is in the directory and her token is valid
    and not yet expired, but the read of the users file throws; the
    [/register] for her e-mail is then not rejected, and the directory is
    replaced by the new user alone. *)
Lemma register_duplicate_when_read_fails :
  let o := unreadable_oracle 1002000 in
  let r := run (register o (Some "Mallory") (Some alice) (Some alice_token))
               world_login in
  (exists u, In u (directory world_login) /\
             Js.toLowerCase (email u) = Js.toLowerCase alice) /\
  (exists m, tokenStore world_login !! alice_token = Some m /\
             tok_email m = alice /\ now1 o < tok_expiresAt m) /\
  r.1 <> user_exists /\
  r.1 = resp 200 (WithUser "Registered" (new_user o "Mallory" alice)) /\
  directory r.2 <> directory world_login.
Proof.
  split_and!.
  - exists (new_user (sample_oracle 3000) "Alice" alice).
    split; [vm_compute; left; reflexivity | reflexivity].
  - exists {| tok_email := alice; tok_expiresAt := 1901000 |}.
    split_and!; [vm_compute; reflexivity | reflexivity | simpl; lia].
  - vm_compute. discriminate.
  - vm_compute. reflexivity.
  - vm_compute. discriminate.
Qed.

Lemma toString_hex_injective_witness :
  generateToken (sample_oracle 1) = generateToken (sample_oracle 2) /\
  random_byte (sample_oracle 1) 7 = random_byte (sample_oracle 2) 7.
Proof.
  assert (Heq : generateToken (sample_oracle 1) = generateToken (sample_oracle 2))
    by reflexivity.
  split; [exact Heq|].
  destruct toString_hex_injective as (_ & Htoken & _).
  apply (Htoken (sample_oracle 1) (sample_oracle 2) Heq 7%nat). lia.
Defined.

Lemma janitor_removes_exactly_expired_witness :
  tokenStore (janitor 902000 world_verified) !! alice_token = None /\
  tokenStore (janitor 901999 world_verified) !! alice_token =
    Some {| tok_email := alice; tok_expiresAt := 902000 |}.
Proof.
  destruct (janitor_removes_exactly_expired 902000 world_verified)
    as (Hgone & _).
  destruct (janitor_removes_exactly_expired 901999 world_verified)
    as (Hkept & _).
  split.
  - destruct (tokenStore (janitor 902000 world_verified) !! alice_token)
      as [m|] eqn:Hm; [|reflexivity].
    apply Hgone in Hm as [Hm Hlt]. vm_compute in Hm.
    injection Hm as <-. simpl in Hlt. lia.
  - apply Hkept. split; [vm_compute; reflexivity | simpl; lia].
Defined.

Lemma missing_field_changes_nothing_witness :
  run (verify_otp default_config (sample_oracle 2000) (Some alice) (Some ""))
      world_issued =
    (resp 400 (Error "Email and OTP required"), world_issued) /\
  run (me (sample_oracle 2000) (Some "") None) world_verified =
    (resp 401 (Error "Token required"), world_verified).
Proof.
  destruct (missing_field_changes_nothing default_config (sample_oracle 2000)
              world_issued) as (_ & Hverify & _).
  destruct (missing_field_changes_nothing default_config (sample_oracle 2000)
              world_verified) as (_ & _ & _ & _ & Hme).
  split.
  - apply Hverify. right. reflexivity.
  - apply Hme; reflexivity.
Defined.

Lemma send_otp_issues_or_limits_witness :
  let r := run (send_otp default_config (undeliverable_oracle 252000)
                  (Some alice)) world_issued in
  status r.1 = 500 /\
  otpStore r.2 !! alice =
    Some {| otp := "307418"; otp_expiresAt := 552000; attempts := 0 |}.
Proof.
  intros r.
  destruct (send_otp_issues_or_limits default_config
              (undeliverable_oracle 252000) alice world_issued)
    as [_ Hissue]; [discriminate|].
  destruct Hissue as (Hr & _ & Hstored & _).
  - intros (e & He & Hlive & Hleft). vm_compute in He.
    injection He as <-. simpl in Hleft. lia.
  - subst r. rewrite Hr, Hstored. split; reflexivity.
Defined.

Lemma issued_code_verifies_witness :
  let w1 := (run (send_otp default_config (undeliverable_oracle 1000)
                    (Some alice)) (boot NoFile)).2 in
  (run (verify_otp default_config (sample_oracle 301000) (Some alice)
          (Some (generateOTP (undeliverable_oracle 1000) 6))) w1).1 =
    resp 200 (WithToken "Verified" alice_token).
Proof.
  intros w1.
  destruct (issued_code_verifies default_config (undeliverable_oracle 1000)
              (sample_oracle 301000) alice (boot NoFile)) as (Hr & _).
  - discriminate.
  - intros (e & He & _). vm_compute in He. discriminate He.
  - simpl. lia.
  - exact Hr.
Defined.

Lemma verify_otp_mints_only_on_match_witness :
  tokenStore
    (run (verify_otp default_config (sample_oracle 2000) (Some alice)
            (Some "999999")) world_issued).2 = tokenStore world_issued.
Proof.
  destruct (verify_otp_mints_only_on_match default_config (sample_oracle 2000)
              (Some alice) (Some "999999") world_issued) as [_ H].
  apply H. vm_compute. discriminate.
Defined.

Lemma otp_single_use_witness :
  let r := run (verify_otp default_config (sample_oracle 2000) (Some alice)
                  (Some alice_code)) world_issued in
  let w' := run_events default_config
              [Sweep 60000; Serve (sample_oracle 61000) (ReqSendOtp (Some "b@y.org"))]
              r.2 in
  run (verify_otp default_config (sample_oracle 62000) (Some alice)
         (Some alice_code)) w' = (no_challenge, w').
Proof.
  intros r w'.
  destruct (otp_single_use default_config (sample_oracle 2000) (Some alice)
              (Some alice_code) world_issued) as [_ Hlater].
  - left. vm_compute. reflexivity.
  - destruct (Hlater [Sweep 60000;
                      Serve (sample_oracle 61000) (ReqSendOtp (Some "b@y.org"))])
      as [Hverify _].
    + repeat constructor; intros H; vm_compute in H;
        solve [destruct H | discriminate H].
    + apply (Hverify (sample_oracle 62000) (Some alice_code)). reflexivity.
Defined.

Lemma exists_user_answers_witness :
  run (exists_user (sample_oracle 5000) (Some "A@X.com")) world_registered =
    (resp 200 (ExistsIs true), world_registered) /\
  usersFile (run (exists_user (sample_oracle 5000) (Some alice)) (boot NoFile)).2 =
    Document [].
Proof.
  split.
  - destruct (exists_user_answers (sample_oracle 5000) "A@X.com"
                world_registered) as (Hread & _); [discriminate|].
    destruct (Hread [new_user (sample_oracle 3000) "Alice" alice])
      as (b & Hr & Hb); [vm_compute; reflexivity | reflexivity |].
    rewrite Hr. do 3 f_equal. apply Hb.
    exists (new_user (sample_oracle 3000) "Alice" alice).
    split; [left; reflexivity | reflexivity].
  - destruct (exists_user_answers (sample_oracle 5000) alice (boot NoFile))
      as (_ & _ & Habsent); [discriminate|].
    destruct Habsent as (_ & Hfile & _); [reflexivity | exact Hfile].
Defined.

Lemma registered_user_is_found_witness :
  let w' := run_events default_config
              [Sweep 60000;
               Serve (unwritable_oracle 70000)
                 (ReqRegister (Some "Bob") (Some bob) (Some "0123"))]
              world_registered in
  (run (exists_user (sample_oracle 80000) (Some "A@X.COM")) w').1 =
    resp 200 (ExistsIs true) /\
  run (me (sample_oracle 80000) (Some alice_token) None) w' =
    (resp 401 (Error "Invalid or expired token"), w').
Proof.
  intros w'.
  destruct (registered_user_is_found default_config (sample_oracle 3000)
              (Some "Alice") (Some alice) (Some alice_token) world_verified)
    with (es := [Sweep 60000;
                 Serve (unwritable_oracle 70000)
                   (ReqRegister (Some "Bob") (Some bob) (Some "0123"))])
    as [Hexists Hme].
  - vm_compute. reflexivity.
  - repeat (constructor;
            [split; intros H; vm_compute in H;
               solve [destruct H | discriminate H
                     | destruct H as [_ H]; discriminate H]|]).
    constructor.
  - split.
    + apply (Hexists (sample_oracle 80000) "A@X.COM");
        [discriminate | reflexivity | reflexivity].
    + apply Hme.
      repeat (constructor; [intros H; vm_compute in H; destruct H|]).
      constructor.
Defined.

Lemma directory_append_only_witness :
  exists added : list User,
    directory
      (run_events default_config
         [Serve (sample_oracle 3000)
            (ReqRegister (Some "Alice") (Some alice) (Some alice_token));
          Sweep 60000;
          Serve (unreadable_oracle 70000) (ReqExists (Some alice))]
         world_verified) =
    (directory world_verified ++ added)%list.
Proof.
  apply directory_append_only.
  repeat (constructor;
          [split; intros H; vm_compute in H;
             solve [destruct H | discriminate H
                   | destruct H as [H _]; discriminate H]|]).
  constructor.
Defined.

Lemma directory_users_well_formed_witness :
  Forall wf_user
    (directory
       (run_events default_config
          [Serve (sample_oracle 3000)
             (ReqRegister (Some "Alice") (Some alice) (Some alice_token))]
          world_verified)).
Proof.
  apply directory_users_well_formed. vm_compute. constructor.
Defined.

Lemma expiry_instant_witness :
  (run (verify_otp default_config (sample_oracle 301000) (Some alice)
          (Some alice_code)) world_issued).1 =
    resp 200 (WithToken "Verified" alice_token) /\
  (run (verify_otp default_config (sample_oracle 301001) (Some alice)
          (Some alice_code)) world_issued).1 = otp_expired /\
  otpStore (janitor 301000 world_issued) !! alice = None.
Proof.
  destruct (expiry_instant default_config alice world_issued sample_challenge)
    as (Hverify & Hlate & _ & Hswept).
  - discriminate.
  - discriminate.
  - vm_compute. reflexivity.
  - simpl. lia.
  - split; [|split].
    + apply (Hverify (sample_oracle 301000)). reflexivity.
    + apply (Hlate (sample_oracle 301001)). reflexivity.
    + exact Hswept.
Defined.

Lemma sweep_commutes_with_verify_witness :
  let r := run (verify_otp default_config (sample_oracle 400000) (Some alice)
                  (Some alice_code)) world_issued in
  let r' := run (verify_otp default_config (sample_oracle 400000) (Some alice)
                   (Some alice_code)) (janitor 360000 world_issued) in
  r'.2 = janitor 360000 r.2 /\ r.1 = otp_expired /\ r'.1 = no_challenge.
Proof.
  intros r r'.
  destruct (sweep_commutes_with_verify default_config 360000
              (sample_oracle 400000) (Some alice) (Some alice_code)
              world_issued) as [Hworld _]; [simpl; lia | simpl; lia |].
  split; [exact Hworld|]. split; vm_compute; reflexivity.
Defined.

Lemma requests_are_isolated_witness :
  otpStore
    (run (verify_otp default_config (sample_oracle 2000) (Some "b@y.org")
            (Some alice_code)) world_issued).2 !! alice =
    otpStore world_issued !! alice.
Proof.
  destruct (requests_are_isolated default_config (sample_oracle 2000)
              world_issued alice) as (_ & Hverify & _).
  apply (Hverify (Some "b@y.org") (Some alice_code)). discriminate.
Defined.

Lemma otp_to_registration_witness :
  let w1 := (run (send_otp default_config (sample_oracle 1000) (Some alice))
               (boot NoFile)).2 in
  let w2 := (run (verify_otp default_config (sample_oracle 2000) (Some alice)
                    (Some (generateOTP (sample_oracle 1000) 6))) w1).2 in
  let r := run (register (sample_oracle 3000) (Some "Alice") (Some alice)
                  (Some (generateToken (sample_oracle 2000)))) w2 in
  r.1 = resp 200 (WithUser "Registered"
                   (new_user (sample_oracle 3000) "Alice" alice)) /\
  directory r.2 = [new_user (sample_oracle 3000) "Alice" alice].
Proof.
  intros w1 w2 r.
  destruct (otp_to_registration default_config (sample_oracle 1000)
              (sample_oracle 2000) (sample_oracle 3000) "Alice" alice
              (boot NoFile)) as (Hr & Hdir & _).
  - discriminate.
  - discriminate.
  - intros (e & He & _). vm_compute in He. discriminate He.
  - simpl. lia.
  - reflexivity.
  - reflexivity.
  - split; [exact Hr | exact Hdir].
Defined.

Lemma six_guesses_witness :
  (run (verify_otp default_config (sample_oracle 3000) (Some alice)
          (Some alice_code))
       (serve_all default_config
          (map (verify_call alice) (repeat (sample_oracle 2000, "999999") 5))
          world_issued).2).1 =
    resp 200 (WithToken "Verified" alice_token) /\
  (run (verify_otp default_config (sample_oracle 3000) (Some alice)
          (Some alice_code))
       (serve_all default_config
          (map (verify_call alice) (repeat (sample_oracle 2000, "999999") 6))
          world_issued).2).1 = too_many_attempts.
Proof.
  split.
  - destruct (six_guesses default_config alice world_issued sample_challenge
                (repeat (sample_oracle 2000, "999999") 5) (sample_oracle 3000))
      as [Hfew _].
    + discriminate.
    + discriminate.
    + vm_compute. reflexivity.
    + reflexivity.
    + repeat constructor; simpl; try lia; discriminate.
    + simpl. lia.
    + destruct Hfew as [Hr _]; [simpl; lia | exact Hr].
  - destruct (six_guesses default_config alice world_issued sample_challenge
                (repeat (sample_oracle 2000, "999999") 6) (sample_oracle 3000))
      as [_ Hsix].
    + discriminate.
    + discriminate.
    + vm_compute. reflexivity.
    + reflexivity.
    + repeat constructor; simpl; try lia; discriminate.
    + simpl. lia.
    + destruct Hsix as [Hr _]; [reflexivity | exact Hr].
Defined.
